(** * First-frame extractor: a model of [frame-extractor.py] and its properties

    The script discovers the video files of one directory (by file-name
    suffix), asks OpenCV for the first frame of each of them and stores that
    frame as a PNG image next to the video.

    The development follows the script function by function.  Python
    strings are lists of characters, the calls into OpenCV, the operating
    system and pip are answered by an environment record, and the
    statements of the script run in a state-and-exception monad whose
    [try]/[except]/[finally] combinators follow the Python semantics. *)

From Stdlib Require Import ZArith Ascii String List Lia Bool.
From stdpp Require Import base tactics option list gmap sets.
From stdpp Require strings.

Local Open Scope Z_scope.

(** ** Python strings *)

Module PyStr.

(** A [str] is modelled as the list of its characters; characters are
    8-bit, so [lower] is the ASCII case mapping. *)
Definition pystr : Type := list ascii.

Definition py (s : string) : pystr := list_ascii_of_string s.

Definition len (s : pystr) : Z := Z.of_nat (length s).

(** Slice bounds are clamped the way Python clamps them. *)
Definition clamp (n i : Z) : Z :=
  if i <? 0 then Z.max 0 (n + i) else Z.min i n.

(** [s[a:b]], [s[:b]] and [s[a:]]. *)
Definition slice (s : pystr) (a b : Z) : pystr :=
  let a' := clamp (len s) a in
  let b' := clamp (len s) b in
  take (Z.to_nat (b' - a')) (drop (Z.to_nat a') s).

Definition slice_to (s : pystr) (b : Z) : pystr := slice s 0 b.

Definition slice_from (s : pystr) (a : Z) : pystr := slice s a (len s).

(** [s.lower()] *)
Definition lower_char (c : ascii) : ascii :=
  let n := N_of_ascii c in
  if ((65 <=? n) && (n <=? 90))%N then ascii_of_N (n + 32) else c.

Definition lower (s : pystr) : pystr := map lower_char s.

(** [s.startswith(x)] and [s.endswith(x)] for one string [x]. *)
Definition startswith (s x : pystr) : bool :=
  bool_decide (slice_to s (len x) = x).

Definition endswith (s x : pystr) : bool :=
  (len x <=? len s) && bool_decide (slice_from s (len s - len x) = x).

(** [s.endswith(t)] for a tuple [t] of strings. *)
Definition endswith_any (s : pystr) (t : list pystr) : bool :=
  existsb (endswith s) t.

(** [s.rfind(c)] for a one-character [c]: the highest index of [c], or -1. *)
Fixpoint rfind (s : pystr) (c : ascii) : Z :=
  match s with
  | [] => -1
  | x :: t =>
      let r := rfind t c in
      if 0 <=? r then r + 1
      else if bool_decide (x = c) then 0 else -1
  end.

(** Truth value of a string: the empty string is false. *)
Definition truthy (s : pystr) : bool :=
  match s with [] => false | _ => true end.

End PyStr.
Export PyStr.

(** ** [os.path] (POSIX flavour) *)

Module OsPath.

Definition sep : ascii := "/"%char.
Definition extsep : ascii := "."%char.

(** The loop of [genericpath._splitext] that skips the leading dots of the
    last component.  [fuel] counts the iterations that remain before
    [filenameIndex] reaches [dotIndex]; when none remains the loop
    condition is false and the function falls through to its last line. *)
Fixpoint splitext_loop (fuel : nat) (p : pystr) (filenameIndex dotIndex : Z)
  : pystr * pystr :=
  match fuel with
  | O => (p, slice_to p 0)
  | S fuel' =>
      if filenameIndex <? dotIndex then
        if bool_decide (slice p filenameIndex (filenameIndex + 1) ≠ [extsep])
        then (slice_to p dotIndex, slice_from p dotIndex)
        else splitext_loop fuel' p (filenameIndex + 1) dotIndex
      else (p, slice_to p 0)
  end.

(** [os.path.splitext(p)] *)
Definition splitext (p : pystr) : pystr * pystr :=
  let sepIndex := rfind p sep in
  let dotIndex := rfind p extsep in
  if dotIndex >? sepIndex then
    let filenameIndex := sepIndex + 1 in
    splitext_loop (Z.to_nat (dotIndex - filenameIndex)) p filenameIndex dotIndex
  else (p, slice_to p 0).

(** [os.path.join(a, b)] *)
Definition join (a b : pystr) : pystr :=
  if startswith b [sep] then b
  else if negb (truthy a) || endswith a [sep] then a ++ b
  else a ++ [sep] ++ b.

(** The head that [os.path.split] cuts off: everything up to and
    including the last separator. *)
Definition head (p : pystr) : pystr := slice_to p (rfind p sep + 1).

(** [os.path.dirname(p)]: the head without its trailing separators,
    unless it consists of separators only. *)
Fixpoint rstrip_sep_rev (r : pystr) : pystr :=
  match r with
  | c :: t => if bool_decide (c = sep) then rstrip_sep_rev t else r
  | [] => []
  end.

Definition rstrip_sep (s : pystr) : pystr := rev (rstrip_sep_rev (rev s)).

Definition dirname (p : pystr) : pystr :=
  let h := head p in
  if truthy h && negb (bool_decide (h = replicate (length h) sep))
  then rstrip_sep h else h.

End OsPath.
Export OsPath.

(** ** Exceptions, outcomes and the statement monad *)

Module PyMonad.

(** The exception classes that occur in a run.  Every class but
    [SystemExit] derives from [Exception]. *)
Inductive exn_class :=
  | CvError | ImportError | CalledProcessError | OSError | EOFError
  | UnboundLocalError | OtherException.

Inductive pyexn :=
  | SystemExit (code : Z)
  | PyError (cls : exn_class) (msg : pystr).

Global Instance exn_class_eq_dec : EqDecision exn_class.
Proof. solve_decision. Defined.

(** [isinstance(e, Exception)] *)
Definition is_Exception (e : pyexn) : bool :=
  match e with SystemExit _ => false | PyError _ _ => true end.

(** [isinstance(e, cls)], for the classes above (none derives from another). *)
Definition is_instance (cls : exn_class) (e : pyexn) : bool :=
  match e with SystemExit _ => false | PyError c _ => bool_decide (c = cls) end.

(** [str(e)] *)
Definition exn_str (e : pyexn) : pystr :=
  match e with SystemExit _ => [] | PyError _ msg => msg end.

Inductive outcome (A : Type) :=
  | Ret (a : A)
  | Raise (e : pyexn).
Global Arguments Ret {A} a.
Global Arguments Raise {A} e.

(** A statement reads and updates a state [S] and either produces a value
    or raises. *)
Definition Py (S A : Type) : Type := S -> outcome A * S.

Definition ret {S A} (a : A) : Py S A := fun s => (Ret a, s).

Definition raise {S A} (e : pyexn) : Py S A := fun s => (Raise e, s).

Definition bind {S A B} (m : Py S A) (k : A -> Py S B) : Py S B :=
  fun s =>
    match m s with
    | (Ret a, s') => k a s'
    | (Raise e, s') => (Raise e, s')
    end.

Definition gets {S A} (f : S -> A) : Py S A := fun s => (Ret (f s), s).

Definition modify {S} (f : S -> S) : Py S unit := fun s => (Ret tt, f s).

(** [try: body  except <filter> as e: handler e] *)
Definition try_except {S A} (catches : pyexn -> bool)
    (body : Py S A) (handler : pyexn -> Py S A) : Py S A :=
  fun s =>
    match body s with
    | (Ret a, s') => (Ret a, s')
    | (Raise e, s') => if catches e then handler e s' else (Raise e, s')
    end.

(** [try: body  finally: fin].  The [finally] block runs on every way out
    of the body; when it raises, its exception replaces the pending value
    or exception of the body. *)
Definition try_finally {S A} (body : Py S A) (fin : Py S unit) : Py S A :=
  fun s =>
    match body s with
    | (r, s') =>
        match fin s' with
        | (Ret _, s'') => (r, s'')
        | (Raise e, s'') => (Raise e, s'')
        end
    end.

(** Run a function body in a fresh frame of local variables [l0]. *)
Definition call {W L A} (l0 : L) (body : Py (W * L) A) : Py W A :=
  fun w => match body (w, l0) with (r, (w', _)) => (r, w') end.

(** A statement on the global state, run inside a function body. *)
Definition global {W L A} (m : Py W A) : Py (W * L) A :=
  fun s => match m (fst s) with (r, w') => (r, (w', snd s)) end.

(** Read and assign the local variables. *)
Definition local {W L A} (f : L -> A) : Py (W * L) A :=
  fun s => (Ret (f (snd s)), s).

Definition assign {W L} (f : L -> L) : Py (W * L) unit :=
  fun s => (Ret tt, (fst s, f (snd s))).

End PyMonad.
Export PyMonad.

Declare Scope py_scope.
Delimit Scope py_scope with py.
Notation "x <- c ;; k" := (bind c (fun x => k))
  (at level 100, c at next level, right associativity) : py_scope.
Notation "c ;; k" := (bind c (fun _ => k))
  (at level 100, right associativity) : py_scope.

(** ** The world around the script *)

Module World.

(** A decoded frame is its pixel data; the empty list stands for the
    [None] that [read] returns next to a false flag. *)
Definition frame : Type := list Z.

Inductive file_content :=
  | PngImage (pixels : frame)
  | OtherData (bytes : list Z).

(** What a path of the directory tree names, with the permission bits the
    script asks about. *)
#[warnings="-register-all"]
Inductive fsnode :=
  | RegularFile (readable writable : bool)
  | Directory (readable writable : bool) (entries : list (pystr * fsnode)).

(** The answers of the external calls.  OpenCV, the operating system and
    pip raise instances of [Exception] subclasses only. *)
Inductive open_outcome :=
  | OpenRaises (cls : exn_class) (msg : pystr)
  | OpenFails
  | Opened.

Inductive read_outcome :=
  | ReadRaises (cls : exn_class) (msg : pystr)
  | NoFrame
  | FirstFrame (f : frame).

Inductive write_outcome :=
  | WriteRaises (cls : exn_class) (msg : pystr)
  | WriteFalse
  | WriteTrue.

Record Env := {
  argv : list pystr;                      (* sys.argv *)
  executable : pystr;                     (* sys.executable *)
  stdin_line : option pystr;              (* the line input() gets; None at end of input *)
  can_import : list pystr -> pystr -> bool;
    (* is the module importable, given the packages pip installed in this run *)
  pip_install : pystr -> Z;               (* return code of pip install <package> *)
  lookup_path : pystr -> option fsnode;   (* what a path names when the run starts *)
  cv_open : gmap pystr file_content -> pystr -> open_outcome;
  cv_read : gmap pystr file_content -> pystr -> read_outcome;
  cv_imwrite : gmap pystr file_content -> pystr -> frame -> write_outcome
}.

Inductive loglevel := INFO | WARNING | ERROR.

(** Log records, with the values that the script formats into the text. *)
Inductive logmsg :=
  | InstallingPackage (package : pystr)
  | DirectoryDoesNotExist (directory : pystr)
  | PathIsNotADirectory (directory : pystr)
  | InsufficientPermissions (directory : pystr)
  | CouldNotOpen (video_path : pystr)
  | CouldNotReadFrame (video_path : pystr)
  | ErrorProcessing (video_path : pystr) (reason : pystr)
  | NoVideoFilesFound (directory : pystr)
  | FoundVideoFiles (count : nat)
  | ProcessingComplete (total successful failed : nat).

(** What a run does to the outside, in the order it does it. *)
Inductive event :=
  | EvLog (level : loglevel) (m : logmsg)
  | EvImport (module : pystr)
  | EvSubprocess (command : list pystr)
  | EvInput
  | EvStat (path : pystr)
  | EvListdir (path : pystr)
  | EvVideoCapture (path : pystr)
  | EvRead (handle : nat)
  | EvImwrite (path : pystr)
  | EvRelease (handle : nat)
  | EvProgress (finished : nat).

Record World := {
  files : gmap pystr file_content;   (* contents of the files, by path *)
  sessions : gmap nat pystr;         (* open decode sessions: handle to path *)
  installed : list pystr;            (* packages pip installed in this run *)
  trace : list event
}.

Definition emit (e : event) (w : World) : World :=
  {| files := files w; sessions := sessions w; installed := installed w;
     trace := trace w ++ [e] |}.

Definition set_files (f : gmap pystr file_content) (w : World) : World :=
  {| files := f; sessions := sessions w; installed := installed w;
     trace := trace w |}.

Definition set_sessions (s : gmap nat pystr) (w : World) : World :=
  {| files := files w; sessions := s; installed := installed w;
     trace := trace w |}.

Definition add_installed (package : pystr) (w : World) : World :=
  {| files := files w; sessions := sessions w;
     installed := installed w ++ [package]; trace := trace w |}.

(** A [cv2.VideoCapture] object. *)
Record capture := { cap_handle : nat; cap_path : pystr }.

End World.
Export World.

Local Open Scope py_scope.

(** ** The library calls the script makes *)

Section Script.

Context (env : Env).

Definition log (level : loglevel) (m : logmsg) : Py World unit :=
  modify (emit (EvLog level m)).

(** [sys.exit(code)] *)
Definition sys_exit {A} (code : Z) : Py World A := raise (SystemExit code).

(** [__import__(name)] *)
Definition import_module (name : pystr) : Py World unit :=
  modify (emit (EvImport name)) ;;
  pkgs <- gets installed ;;
  if can_import env pkgs name then ret tt
  else raise (PyError ImportError name).

(** [subprocess.check_call([sys.executable, "-m", "pip", "install", package])] *)
Definition pip_check_call (package : pystr) : Py World unit :=
  modify (emit (EvSubprocess
                  [executable env; py "-m"; py "pip"; py "install"; package])) ;;
  if pip_install env package =? 0 then modify (add_installed package)
  else raise (PyError CalledProcessError package).

(** [input(prompt)] *)
Definition input : Py World pystr :=
  modify (emit EvInput) ;;
  match stdin_line env with
  | Some line => ret line
  | None => raise (PyError EOFError [])
  end.

Definition os_path_exists (path : pystr) : Py World bool :=
  modify (emit (EvStat path)) ;;
  ret (bool_decide (is_Some (lookup_path env path))).

Definition os_path_isdir (path : pystr) : Py World bool :=
  modify (emit (EvStat path)) ;;
  ret (match lookup_path env path with
       | Some (Directory _ _ _) => true
       | _ => false
       end).

(** [os.access(path, os.R_OK | os.W_OK)] *)
Definition os_access_rw (path : pystr) : Py World bool :=
  modify (emit (EvStat path)) ;;
  ret (match lookup_path env path with
       | Some (Directory r w _) | Some (RegularFile r w) => r && w
       | None => false
       end).

(** The names in a directory, in the order the system lists them. *)
Definition entry_names (entries : list (pystr * fsnode)) : list pystr :=
  map fst entries.

Definition os_listdir (path : pystr) : Py World (list pystr) :=
  modify (emit (EvListdir path)) ;;
  match lookup_path env path with
  | Some (Directory true _ entries) => ret (entry_names entries)
  | _ => raise (PyError OSError path)
  end.

(** [cv2.VideoCapture(path)].  The object gets a handle no open session
    uses; the session is entered in [sessions] when the file opens. *)
Definition cv2_VideoCapture (path : pystr) : Py World capture :=
  modify (emit (EvVideoCapture path)) ;;
  fs <- gets files ;;
  ss <- gets sessions ;;
  let cap := {| cap_handle := fresh (dom ss); cap_path := path |} in
  match cv_open env fs path with
  | OpenRaises cls msg => raise (PyError cls msg)
  | OpenFails => ret cap
  | Opened => modify (set_sessions (<[cap_handle cap := path]> ss)) ;; ret cap
  end.

Definition cap_isOpened (cap : capture) : Py World bool :=
  ss <- gets sessions ;;
  ret (bool_decide (is_Some (ss !! cap_handle cap))).

(** [cap.read()]: the flag and the frame. *)
Definition cap_read (cap : capture) : Py World (bool * frame) :=
  modify (emit (EvRead (cap_handle cap))) ;;
  fs <- gets files ;;
  ss <- gets sessions ;;
  match ss !! cap_handle cap with
  | None => ret (false, [])
  | Some path =>
      match cv_read env fs path with
      | ReadRaises cls msg => raise (PyError cls msg)
      | NoFrame => ret (false, [])
      | FirstFrame f => ret (true, f)
      end
  end.

Definition cap_release (cap : capture) : Py World unit :=
  modify (emit (EvRelease (cap_handle cap))) ;;
  ss <- gets sessions ;;
  modify (set_sessions (delete (cap_handle cap) ss)).

(** [cv2.imwrite(path, img)].  A successful call puts the encoded frame at
    [path], whatever was there. *)
Definition cv2_imwrite (path : pystr) (img : frame) : Py World bool :=
  modify (emit (EvImwrite path)) ;;
  fs <- gets files ;;
  match cv_imwrite env fs path img with
  | WriteRaises cls msg => raise (PyError cls msg)
  | WriteFalse => ret false
  | WriteTrue => modify (set_files (<[path := PngImage img]> fs)) ;; ret true
  end.

(** ** The script *)

(** The functions of the script, in its order.  A run is a call of
    [main]; the statements at module level (the imports and the set-up of
    the logger) come before it and are not part of the model. *)

(** [check_dependencies] (lines 39-50) *)
Definition required_packages : list pystr := [py "opencv-python"; py "tqdm"].

(** [s.replace(a, b)] for one-character [a] and [b]. *)
Definition replace_char (a b : ascii) (s : pystr) : pystr :=
  map (fun c => if bool_decide (c = a) then b else c) s.

Fixpoint check_dependencies_loop (packages : list pystr) : Py World unit :=
  match packages with
  | [] => ret tt
  | package :: rest =>
      try_except (is_instance ImportError)
        (import_module (replace_char "-" "_" package))
        (fun _ =>
           log INFO (InstallingPackage package) ;;
           pip_check_call package) ;;
      check_dependencies_loop rest
  end.

Definition check_dependencies : Py World unit :=
  check_dependencies_loop required_packages.

(** [validate_directory] (lines 52-71) *)
Definition validate_directory (directory : pystr) : Py World bool :=
  present <- os_path_exists directory ;;
  if negb present then
    log ERROR (DirectoryDoesNotExist directory) ;; ret false
  else
    isdir <- os_path_isdir directory ;;
    if negb isdir then
      log ERROR (PathIsNotADirectory directory) ;; ret false
    else
      access <- os_access_rw directory ;;
      if negb access then
        log ERROR (InsufficientPermissions directory) ;; ret false
      else ret true.

(** [get_video_files] (lines 73-90) *)
Definition video_extensions : list pystr :=
  [py ".mp4"; py ".avi"; py ".mov"; py ".mkv"; py ".wmv"; py ".flv"].

Fixpoint get_video_files_loop (directory : pystr) (listing : list pystr)
    (video_files : list pystr) : list pystr :=
  match listing with
  | [] => video_files
  | file :: rest =>
      let video_files :=
        if endswith_any (lower file) video_extensions
        then video_files ++ [join directory file]
        else video_files in
      get_video_files_loop directory rest video_files
  end.

Definition get_video_files (directory : pystr) : Py World (list pystr) :=
  listing <- os_listdir directory ;;
  ret (get_video_files_loop directory listing []).

(** [extract_first_frame] (lines 92-131).  Its one local variable that
    outlives the [try] block is [video_capture]; it is unbound until the
    constructor has returned. *)
Record locals := { video_capture : option capture }.

Definition unbound : locals := {| video_capture := None |}.

(** A use of the name [video_capture]. *)
Definition load_video_capture : Py (World * locals) capture :=
  v <- local video_capture ;;
  match v with
  | Some cap => ret cap
  | None => raise (PyError UnboundLocalError (py "video_capture"))
  end.

Definition output_path_of (video_path : pystr) : pystr :=
  let base_name := fst (splitext video_path) in
  base_name ++ py "_first_frame.png".

Definition extract_first_frame (video_path : pystr)
  : Py World (option pystr) :=
  call unbound
    (try_finally
       (try_except is_Exception
          (cap <- global (cv2_VideoCapture video_path) ;;
           assign (fun _ => {| video_capture := Some cap |}) ;;
           cap <- load_video_capture ;;
           opened <- global (cap_isOpened cap) ;;
           if negb opened then
             global (log ERROR (CouldNotOpen video_path)) ;; ret None
           else
             cap <- load_video_capture ;;
             r <- global (cap_read cap) ;;
             let success := fst r in
             let frame := snd r in
             if negb success then
               global (log ERROR (CouldNotReadFrame video_path)) ;; ret None
             else
               let output_path := output_path_of video_path in
               global (cv2_imwrite output_path frame) ;;
               ret (Some output_path))
          (fun e =>
             global (log ERROR (ErrorProcessing video_path (exn_str e))) ;;
             ret None))
       (cap <- load_video_capture ;;
        global (cap_release cap))).

(** Truth value of an [Optional[str]]. *)
Definition truthy_opt (r : option pystr) : bool :=
  match r with Some s => truthy s | None => false end.

(** The loop of [main] (lines 166-170) over what is left of the list, with
    the two counters; the progress bar advances after each file. *)
Fixpoint process_videos (video_files : list pystr) (finished : nat)
    (successful failed : nat) : Py World (nat * nat) :=
  match video_files with
  | [] => ret (successful, failed)
  | video_file :: rest =>
      r <- extract_first_frame video_file ;;
      modify (emit (EvProgress (S finished))) ;;
      if truthy_opt r
      then process_videos rest (S finished) (successful + 1)%nat failed
      else process_videos rest (S finished) successful (failed + 1)%nat
  end.

(** [main] (lines 133-178) *)
Definition main : Py World unit :=
  check_dependencies ;;
  import_module (py "tqdm") ;;
  directory <- match argv env with
               | _ :: directory :: _ => ret directory
               | _ => input
               end ;;
  valid <- validate_directory directory ;;
  if negb valid then sys_exit 1
  else
    video_files <- get_video_files directory ;;
    match video_files with
    | [] => log WARNING (NoVideoFilesFound directory) ;; sys_exit 0
    | _ :: _ =>
        log INFO (FoundVideoFiles (length video_files)) ;;
        counts <- process_videos video_files 0 0 0 ;;
        log INFO (ProcessingComplete (length video_files)
                    (fst counts) (snd counts))
    end.

End Script.

(** The status the interpreter exits with: the code given to [sys.exit],
    1 after an uncaught exception, 0 when the script runs to its end. *)
Definition exit_status {A} (r : outcome A) : Z :=
  match r with
  | Ret _ => 0
  | Raise (SystemExit code) => code
  | Raise (PyError _ _) => 1
  end.

Definition initial_world (fs : gmap pystr file_content) : World :=
  {| files := fs; sessions := ∅; installed := []; trace := [] |}.

(** ** Vocabulary of the properties *)

(** *** Paths *)

Definition all_dots (s : pystr) : bool :=
  forallb (fun c => bool_decide (c = extsep)) s.

(** Does [splitext] find an extension: a dot after the last separator
    that is preceded, inside the last component, by some other character. *)
Definition has_extension (p : pystr) : bool :=
  let s := rfind p sep in
  let d := rfind p extsep in
  (d >? s) &&
  negb (all_dots (take (Z.to_nat (d - (s + 1))) (drop (Z.to_nat (s + 1)) p))).

(** What [join] puts in front of a name that holds no separator. *)
Definition join_prefix (a : pystr) : pystr :=
  if negb (truthy a) || endswith a [sep] then a else a ++ [sep].

(** *** Directories *)

(** The suffix test of discovery. *)
Definition is_video_name (name : pystr) : bool :=
  endswith_any (lower name) video_extensions.

(** Names of directory entries are not empty and hold no separator. *)
Definition valid_name (name : pystr) : bool :=
  negb (bool_decide (name = [])) && negb (bool_decide (sep ∈ name)).

Fixpoint wf_node (n : fsnode) : bool :=
  match n with
  | RegularFile _ _ => true
  | Directory _ _ entries =>
      forallb (fun e => valid_name (fst e) && wf_node (snd e)) entries
  end.

(** The paths of everything below a directory node whose own path is
    [prefix], at any depth. *)
Fixpoint descendants (prefix : pystr) (n : fsnode) : list pystr :=
  match n with
  | RegularFile _ _ => []
  | Directory _ _ entries =>
      flat_map (fun e => join prefix (fst e)
                         :: descendants (join prefix (fst e)) (snd e)) entries
  end.

(** The directory a run works on: the first command-line argument, or
    else the line read from standard input. *)
Definition requested_directory (env : Env) : option pystr :=
  match argv env with
  | _ :: directory :: _ => Some directory
  | _ => stdin_line env
  end.

(** The value of [validate_directory]. *)
Definition valid_directory (env : Env) (directory : pystr) : bool :=
  match lookup_path env directory with
  | Some (Directory r w _) => r && w
  | _ => false
  end.

Definition listing (env : Env) (directory : pystr) : list pystr :=
  match lookup_path env directory with
  | Some (Directory _ _ entries) => entry_names entries
  | _ => []
  end.

(** The candidates discovery finds in a directory. *)
Definition candidates (env : Env) (directory : pystr) : list pystr :=
  map (join directory) (List.filter is_video_name (listing env directory)).

(** *** The extractor *)

Definition unbound_error : pyexn :=
  PyError UnboundLocalError (py "video_capture").

(** The release at the end of [extract_first_frame]. *)
Definition released (h : nat) (w : World) : World :=
  set_sessions (delete h (sessions w)) (emit (EvRelease h) w).

(** The result of [extract_first_frame], by the answers of OpenCV. *)
Definition extract_result (env : Env) (video_path : pystr) (w : World)
  : outcome (option pystr) * World :=
  let h := fresh (dom (sessions w)) in
  let out := output_path_of video_path in
  let w1 := emit (EvVideoCapture video_path) w in
  match cv_open env (files w) video_path with
  | OpenRaises cls msg =>
      (Raise unbound_error,
       emit (EvLog ERROR (ErrorProcessing video_path msg)) w1)
  | OpenFails =>
      (Ret None, released h (emit (EvLog ERROR (CouldNotOpen video_path)) w1))
  | Opened =>
      let w2 := emit (EvRead h)
                  (set_sessions (<[h := video_path]> (sessions w)) w1) in
      match cv_read env (files w) video_path with
      | ReadRaises cls msg =>
          (Ret None,
           released h (emit (EvLog ERROR (ErrorProcessing video_path msg)) w2))
      | NoFrame =>
          (Ret None,
           released h (emit (EvLog ERROR (CouldNotReadFrame video_path)) w2))
      | FirstFrame f =>
          let w3 := emit (EvImwrite out) w2 in
          match cv_imwrite env (files w) out f with
          | WriteRaises cls msg =>
              (Ret None,
               released h
                 (emit (EvLog ERROR (ErrorProcessing video_path msg)) w3))
          | WriteFalse => (Ret (Some out), released h w3)
          | WriteTrue =>
              (Ret (Some out),
               released h (set_files (<[out := PngImage f]> (files w)) w3))
          end
      end
  end.

(** No call of the [cv2.VideoCapture] constructor raises. *)
Definition no_open_error (env : Env) : Prop :=
  forall fs path cls msg, cv_open env fs path <> OpenRaises cls msg.

(** *** Traces *)

(** What a statement adds to the trace. *)
Definition new_events {A} (m : Py World A) (w : World) : list event :=
  drop (length (trace w)) (trace (snd (m w))).

(** The paths the extractor was called on: each call starts with the
    [cv2.VideoCapture] constructor. *)
Definition capture_calls (t : list event) : list pystr :=
  omap (fun e => match e with EvVideoCapture p => Some p | _ => None end) t.

Definition summaries (t : list event) : list (nat * nat * nat) :=
  omap (fun e => match e with
                 | EvLog _ (ProcessingComplete total s f) => Some (total, s, f)
                 | _ => None
                 end) t.

(** [triple m P Q E]: every event [m] adds to the trace satisfies [P];
    a file differs afterwards only if [m] wrote it with [cv2.imwrite];
    a value [m] returns satisfies [Q], an exception it raises [E]. *)
Definition triple {A} (m : Py World A) (P : event -> Prop)
    (Q : A -> Prop) (E : pyexn -> Prop) : Prop :=
  forall w, exists evs,
    trace (snd (m w)) = trace w ++ evs /\ Forall P evs /\
    (forall path, files (snd (m w)) !! path = files w !! path
                  \/ EvImwrite path ∈ evs) /\
    match fst (m w) with Ret a => Q a | Raise e => E e end.

(** The events of one call of the extractor on [video_path]. *)
Definition extract_event (video_path : pystr) (e : event) : Prop :=
  match e with
  | EvVideoCapture p => p = video_path
  | EvImwrite p => p = output_path_of video_path
  | EvLog ERROR (CouldNotOpen p) | EvLog ERROR (CouldNotReadFrame p)
  | EvLog ERROR (ErrorProcessing p _) => p = video_path
  | EvRead _ | EvRelease _ => True
  | _ => False
  end.

(** The events of the loop of [main] over [video_files]. *)
Definition pass_event (video_files : list pystr) (e : event) : Prop :=
  (exists p, p ∈ video_files /\ extract_event p e) \/ exists n, e = EvProgress n.

(** *** The two phases of [main] *)

(** [main] up to the point where the directory is known, and from there. *)
Definition startup (env : Env) : Py World pystr :=
  check_dependencies env ;;
  import_module env (py "tqdm") ;;
  match argv env with
  | _ :: directory :: _ => ret directory
  | _ => input env
  end.

Definition run_directory (env : Env) (directory : pystr) : Py World unit :=
  valid <- validate_directory env directory ;;
  if negb valid then sys_exit 1
  else
    video_files <- get_video_files env directory ;;
    match video_files with
    | [] => log WARNING (NoVideoFilesFound directory) ;; sys_exit 0
    | _ :: _ =>
        log INFO (FoundVideoFiles (length video_files)) ;;
        counts <- process_videos env video_files 0 0 0 ;;
        log INFO (ProcessingComplete (length video_files)
                    (fst counts) (snd counts))
    end.

Definition pip_command (env : Env) (package : pystr) : list pystr :=
  [executable env; py "-m"; py "pip"; py "install"; package].

(** Events of the start-up phase: imports, the prompt, and pip installing
    a required package. *)
Definition startup_event (env : Env) (e : event) : Prop :=
  match e with
  | EvImport _ | EvInput | EvLog INFO (InstallingPackage _) => True
  | EvSubprocess command =>
      exists package,
        package ∈ required_packages /\ command = pip_command env package
  | _ => False
  end.

(** Events of the work on [directory]: looking at the directory itself,
    decoding its candidates, writing their images, and the log. *)
Definition directory_event (env : Env) (directory : pystr) (e : event)
  : Prop :=
  match e with
  | EvLog _ (ProcessingComplete total successful failed) =>
      (successful + failed = total)%nat /\
      total = length (candidates env directory)
  | EvLog _ (InstallingPackage _) => False
  | EvLog _ _ | EvProgress _ | EvRead _ | EvRelease _ => True
  | EvStat path | EvListdir path => path = directory
  | EvVideoCapture path => path ∈ candidates env directory
  | EvImwrite path =>
      exists video,
        video ∈ candidates env directory /\ path = output_path_of video
  | EvImport _ | EvSubprocess _ | EvInput => False
  end.

(** Events of validation and discovery. *)
Definition lookup_event (directory : pystr) (e : event) : Prop :=
  match e with
  | EvStat path | EvListdir path => path = directory
  | EvLog ERROR (DirectoryDoesNotExist _)
  | EvLog ERROR (PathIsNotADirectory _)
  | EvLog ERROR (InsufficientPermissions _) => True
  | _ => False
  end.

Definition is_py_error (e : pyexn) : Prop := exists cls msg, e = PyError cls msg.

(** How [run_directory] ends. *)
Definition run_directory_returns (env : Env) (directory : pystr) : Prop :=
  valid_directory env directory = true /\ candidates env directory <> [].

Definition run_directory_raises (env : Env) (directory : pystr) (e : pyexn)
  : Prop :=
  (e = SystemExit 1 /\ valid_directory env directory = false) \/
  (e = SystemExit 0 /\ valid_directory env directory = true /\
   candidates env directory = []) \/
  (e = unbound_error /\ valid_directory env directory = true /\
   candidates env directory <> []).

(** *** Two properties as the specification words them *)

(** The exit status is non-zero exactly when validation of the requested
    directory fails. *)
Definition exit_nonzero_iff_invalid (env : Env) (w : World) : Prop :=
  exit_status (fst (main env w)) <> 0 <->
  exists directory,
    requested_directory env = Some directory /\
    valid_directory env directory = false.

(** The effects a run may have when it touches nothing but the videos of
    the directory and their images: every process it starts is ruled out. *)
Definition directory_only_effect (env : Env) (directory : pystr) (e : event)
  : Prop :=
  match e with
  | EvSubprocess _ => False
  | EvStat path | EvListdir path => path = directory
  | EvVideoCapture path => path ∈ candidates env directory
  | EvImwrite path =>
      exists video,
        video ∈ candidates env directory /\ path = output_path_of video
  | _ => True
  end.

Definition touches_only_directory (env : Env) (w : World) : Prop :=
  exists directory,
    Forall (directory_only_effect env directory) (new_events (main env) w).

(** ** Sample runs *)

Module Sample.

Definition videos : pystr := py "/videos".

Definition tree : fsnode :=
  Directory true true
    [ (py "a.mp4", RegularFile true true);
      (py "B.AVI", RegularFile true true);
      (py "notes.txt", RegularFile true true);
      (py "clips.mov",
       Directory true true [ (py "deep.mp4", RegularFile true true) ]) ].

(** A machine on which [cv2] and [tqdm] can be imported (and, as
    everywhere, no module is called [opencv_python]); the directory
    [/videos] holds the tree above; [a.mp4] decodes, [B.AVI] answers
    [second], and the directory [clips.mov] does not open. *)
Definition machine (pip_code : Z) (second : open_outcome)
    (written : write_outcome) : Env :=
  {| argv := [py "frame-extractor.py"; videos];
     executable := py "python3";
     stdin_line := None;
     can_import := fun _ name => negb (bool_decide (name = py "opencv_python"));
     pip_install := fun _ => pip_code;
     lookup_path := fun path =>
       if bool_decide (path = videos) then Some tree else None;
     cv_open := fun _ path =>
       if bool_decide (path = py "/videos/a.mp4") then Opened
       else if bool_decide (path = py "/videos/B.AVI") then second
       else OpenFails;
     cv_read := fun _ _ => FirstFrame [1; 2; 3];
     cv_imwrite := fun _ _ _ => written |}.

Definition env_ok : Env := machine 0 OpenFails WriteTrue.

(** [cv2.imwrite] cannot write and answers [False]. *)
Definition env_write_false : Env := machine 0 OpenFails WriteFalse.

(** The constructor raises for [B.AVI]. *)
Definition env_open_raises : Env :=
  machine 0 (OpenRaises CvError (py "can't convert filename")) WriteTrue.

(** pip ends with return code 1. *)
Definition env_pip_fails : Env := machine 1 OpenFails WriteTrue.

(** A directory that already holds an image under the output name. *)
Definition old_image : gmap pystr file_content :=
  {[ py "/videos/a_first_frame.png" := OtherData [7; 7] ]}.

End Sample.

(** ** Further vocabulary *)

(** The error records of a trace, in order. *)
Definition error_records (t : list event) : list logmsg :=
  omap (fun e => match e with EvLog ERROR m => Some m | _ => None end) t.

(** The name [check_dependencies] imports for a package. *)
Definition module_of (package : pystr) : pystr :=
  replace_char "-" "_" package.

(** Events of the dependency check and of the import that follows it. *)
Definition dependency_event (env : Env) (e : event) : Prop :=
  match e with
  | EvImport _ | EvLog INFO (InstallingPackage _) => True
  | EvSubprocess command =>
      exists package,
        package ∈ required_packages /\ command = pip_command env package
  | _ => False
  end.

(** How the dependency check can fail: pip did not install a required
    package. *)
Definition pip_failure (env : Env) (e : pyexn) : Prop :=
  exists package,
    package ∈ required_packages /\
    e = PyError CalledProcessError package /\
    pip_install env package <> 0.

(** The fixed tail of every output path. *)
Definition output_suffix : pystr := py "_first_frame.png".

(** How [main] can fail before it knows its directory. *)
Definition startup_failure (env : Env) (e : pyexn) : Prop :=
  pip_failure env e \/ e = PyError ImportError (py "tqdm") \/
  e = PyError EOFError [].

(** A statement that leaves the open sessions as they are. *)
Definition keeps_sessions {A} (m : Py World A) : Prop :=
  forall w, sessions (snd (m w)) = sessions w.

(** ** More sample runs *)

Module Sample2.

(** A directory with two videos of the same stem, an image and a
    dot-file. *)
Definition twins : fsnode :=
  Directory true true
    [ (py "show.mp4", RegularFile true true);
      (py "show.avi", RegularFile true true);
      (py "show_first_frame.png", RegularFile true true);
      (py ".mp4", RegularFile true true) ].

Definition locked : fsnode := Directory true false [].

Definition empty_dir : fsnode := Directory true true [].

(** A machine on which every module can be imported.  [/twins], [/locked]
    and [/empty] are directories, [/file] is a regular file, nothing else
    exists.  Every video opens; the frame of a video is the length of its
    path. *)
Definition machine (args : list pystr) (line : option pystr) (pip_code : Z)
    (importable : pystr -> bool) (read : pystr -> read_outcome)
    (written : write_outcome) : Env :=
  {| argv := args;
     executable := py "python3";
     stdin_line := line;
     can_import := fun _ name => importable name;
     pip_install := fun _ => pip_code;
     lookup_path := fun path =>
       if bool_decide (path = py "/twins") then Some twins
       else if bool_decide (path = py "/locked") then Some locked
       else if bool_decide (path = py "/empty") then Some empty_dir
       else if bool_decide (path = py "/file")
            then Some (RegularFile true true)
       else None;
     cv_open := fun _ _ => Opened;
     cv_read := fun _ path => read path;
     cv_imwrite := fun _ _ _ => written |}.

Definition frame_of (path : pystr) : read_outcome := FirstFrame [len path].

Definition run_on (directory : pystr) : Env :=
  machine [py "frame-extractor.py"; directory] None 0 (fun _ => true)
    frame_of WriteTrue.


(** [tqdm] cannot be imported and pip ends with return code 2. *)
Definition env_no_tqdm : Env :=
  machine [py "frame-extractor.py"; py "/twins"] None 2
    (fun name => negb (bool_decide (name = py "tqdm"))) frame_of WriteTrue.

(** [read] raises. *)
Definition env_read_raises : Env :=
  machine [py "frame-extractor.py"; py "/twins"] None 0 (fun _ => true)
    (fun _ => ReadRaises CvError (py "decoder gave up")) WriteTrue.

(** [read] finds no frame. *)
Definition env_no_frame : Env :=
  machine [py "frame-extractor.py"; py "/twins"] None 0 (fun _ => true)
    (fun _ => NoFrame) WriteTrue.

End Sample2.

(** * Properties *)

(** ** Strings and paths *)

Example splitext_clip : splitext (py "/v/clip.MP4") = (py "/v/clip", py ".MP4").
Proof. reflexivity. Qed.

Example splitext_dotfile : splitext (py "/v/.mp4") = (py "/v/.mp4", []).
Proof. reflexivity. Qed.

Example splitext_dotted_dir : splitext (py "/v.d/clip") = (py "/v.d/clip", []).
Proof. reflexivity. Qed.

Example join_plain : join (py "/v") (py "a.mp4") = py "/v/a.mp4".
Proof. reflexivity. Qed.

Example join_slash : join (py "/v/") (py "a.mp4") = py "/v/a.mp4".
Proof. reflexivity. Qed.

Example dirname_clip : dirname (py "/v/w/clip.mp4") = py "/v/w".
Proof. reflexivity. Qed.

Example dirname_root : dirname (py "/clip.mp4") = py "/".
Proof. reflexivity. Qed.

Section StringFacts.
Implicit Types (s p : pystr) (c : ascii).

Lemma slice_nat s (a b : nat) :
  slice s (Z.of_nat a) (Z.of_nat b) = take (b - a) (drop a s).
Proof.
  unfold slice, clamp, len.
  destruct (Z.ltb_spec (Z.of_nat a) 0); [lia|].
  destruct (Z.ltb_spec (Z.of_nat b) 0); [lia|].
  destruct (decide (length s ≤ a)%nat) as [Ha|Ha].
  - rewrite !drop_ge by lia. by rewrite !take_nil.
  - replace (Z.to_nat (Z.of_nat a `min` Z.of_nat (length s))) with a by lia.
    destruct (decide (b ≤ length s)%nat).
    + f_equal. lia.
    + rewrite !take_ge; [done | rewrite length_drop; lia | rewrite length_drop; lia].
Qed.

Lemma slice_to_nat s (n : nat) : slice_to s (Z.of_nat n) = take n s.
Proof.
  unfold slice_to. change 0 with (Z.of_nat 0). rewrite slice_nat.
  by rewrite Nat.sub_0_r.
Qed.

Lemma slice_from_nat s (n : nat) : slice_from s (Z.of_nat n) = drop n s.
Proof.
  unfold slice_from, len. rewrite slice_nat.
  apply take_ge. rewrite length_drop. lia.
Qed.

Lemma slice_to_0 s : slice_to s 0 = [].
Proof. change 0 with (Z.of_nat 0). by rewrite slice_to_nat. Qed.

Lemma rfind_range s c : -1 ≤ rfind s c < len s.
Proof.
  unfold len. induction s as [|x t IH]; simpl; [lia|].
  destruct (Z.leb_spec 0 (rfind t c)); [lia|].
  case_bool_decide; lia.
Qed.

Lemma rfind_absent s c : c ∉ s → rfind s c = -1.
Proof.
  induction s as [|x t IH]; simpl; [done|].
  intros Hn. apply not_elem_of_cons in Hn as [Hx Ht].
  rewrite (IH Ht). simpl. by rewrite bool_decide_eq_false_2.
Qed.

Lemma rfind_present s c : 0 ≤ rfind s c → c ∈ s.
Proof.
  intros H. destruct (decide (c ∈ s)) as [|Hn]; [done|].
  rewrite (rfind_absent _ _ Hn) in H. lia.
Qed.

Lemma rfind_app s1 s2 c :
  rfind (s1 ++ s2) c =
    if 0 <=? rfind s2 c then len s1 + rfind s2 c else rfind s1 c.
Proof.
  unfold len. induction s1 as [|x t IH]; simpl.
  - destruct (Z.leb_spec 0 (rfind s2 c)); [lia|].
    pose proof (rfind_range s2 c). lia.
  - rewrite IH. destruct (Z.leb_spec 0 (rfind s2 c)).
    + pose proof (Zle_0_nat (length t)).
      destruct (Z.leb_spec 0 (Z.of_nat (length t) + rfind s2 c)); lia.
    + done.
Qed.

Lemma rfind_elem s c : c ∈ s → 0 ≤ rfind s c.
Proof.
  intros H. destruct (Z.le_gt_cases 0 (rfind s c)) as [|Hlt]; [done|].
  exfalso. induction s as [|x t IH]; [by apply elem_of_nil in H|].
  simpl in Hlt. destruct (Z.leb_spec 0 (rfind t c)); [lia|].
  case_bool_decide; [lia|].
  apply elem_of_cons in H as [->|H]; [done|]. apply IH; [done|lia].
Qed.

Lemma rfind_split s c :
  0 ≤ rfind s c →
  ∃ s1 s2, s = s1 ++ (c :: s2) ∧ (c ∉ s2) ∧ rfind s c = len s1.
Proof.
  unfold len. induction s as [|x t IH]; simpl; [lia|].
  destruct (Z.leb_spec 0 (rfind t c)) as [Hr|Hr].
  - intros _. destruct (IH Hr) as (s1 & s2 & -> & Hn & Heq).
    exists (x :: s1), s2. repeat split; [done|]. simpl. lia.
  - case_bool_decide as Hx; [|lia]. intros _. subst x.
    exists [], t. repeat split. intros Hin%rfind_elem. lia.
Qed.

Lemma splitext_loop_spec fuel p (i d : nat) :
  (i + fuel = d)%nat → (d ≤ length p)%nat →
  splitext_loop fuel p (Z.of_nat i) (Z.of_nat d) =
    if all_dots (take fuel (drop i p)) then (p, [])
    else (take d p, drop d p).
Proof.
  revert i. induction fuel as [|fuel IH]; intros i Hi Hd; simpl.
  - by rewrite slice_to_0.
  - destruct (Z.ltb_spec (Z.of_nat i) (Z.of_nat d)); [|lia].
    replace (Z.of_nat i + 1) with (Z.of_nat (S i)) by lia.
    rewrite slice_nat. replace (S i - i)%nat with 1%nat by lia.
    destruct (drop i p) as [|x rest] eqn:Hdrop.
    { apply (f_equal length) in Hdrop. rewrite length_drop in Hdrop.
      simpl in Hdrop. lia. }
    assert (drop (S i) p = rest) as Hrest.
    { by rewrite <- Nat.add_1_r, <- drop_drop, Hdrop. }
    simpl. case_bool_decide as Hx.
    + rewrite bool_decide_eq_false_2 by (intros ->; by apply Hx). simpl.
      by rewrite slice_to_nat, slice_from_nat.
    + injection Hx as ->.
      rewrite bool_decide_eq_true_2 by done. simpl.
      rewrite IH by lia. by rewrite Hrest.
Qed.

Lemma splitext_eq p :
  splitext p =
    if has_extension p
    then (take (Z.to_nat (rfind p extsep)) p, drop (Z.to_nat (rfind p extsep)) p)
    else (p, []).
Proof.
  unfold splitext, has_extension.
  pose proof (rfind_range p sep) as Hs.
  pose proof (rfind_range p extsep) as Hd.
  destruct (Z.gtb_spec (rfind p extsep) (rfind p sep)) as [Hgt|Hle]; simpl.
  - rewrite <- (Z2Nat.id (rfind p sep + 1)) at 2 by lia.
    rewrite <- (Z2Nat.id (rfind p extsep)) at 2 by lia.
    rewrite splitext_loop_spec; unfold len in *; [|lia..].
    by destruct (all_dots _).
  - by rewrite slice_to_0.
Qed.

Lemma splitext_cases p :
  splitext p = (p, []) ∨
  ∃ root e, p = root ++ (extsep :: e) ∧ (extsep ∉ e) ∧ (sep ∉ e) ∧
            splitext p = (root, extsep :: e).
Proof.
  rewrite splitext_eq. unfold has_extension.
  destruct (Z.gtb_spec (rfind p extsep) (rfind p sep)) as [Hgt|Hle];
    simpl; [|by left].
  destruct (all_dots _); simpl; [by left|]. right.
  pose proof (rfind_range p sep) as Hs.
  destruct (rfind_split p extsep) as (s1 & s2 & Hp & Hn & Hd); [lia|].
  exists s1, s2. rewrite Hd. unfold len. rewrite Nat2Z.id.
  clear Hs. subst p. rewrite take_app_length, drop_app_length.
  repeat split; try done.
  intros Hin. rewrite Hd in Hgt. rewrite rfind_app in Hgt.
  assert (0 ≤ rfind (extsep :: s2) sep) as Hin'.
  { apply rfind_elem, elem_of_cons. by right. }
  destruct (Z.leb_spec 0 (rfind (extsep :: s2) sep)); [|lia].
  revert Hgt. simpl. apply rfind_elem in Hin.
  destruct (Z.leb_spec 0 (rfind s2 sep)); [|lia]. lia.
Qed.

Lemma splitext_app p : fst (splitext p) ++ snd (splitext p) = p.
Proof.
  destruct (splitext_cases p) as [->|(root & e & Hp & _ & _ & ->)]; simpl.
  - apply app_nil_r.
  - done.
Qed.

Lemma splitext_no_sep p : sep ∉ snd (splitext p).
Proof.
  destruct (splitext_cases p) as [->|(root & e & _ & _ & He & ->)]; simpl.
  - apply not_elem_of_nil.
  - apply not_elem_of_cons. split; [done|done].
Qed.

(** *** Heads and joins *)

Lemma head_app p x : sep ∉ x → head (p ++ x) = head p.
Proof.
  intros Hx. unfold head. rewrite rfind_app, (rfind_absent x sep Hx). simpl.
  pose proof (rfind_range p sep) as Hr. unfold len in Hr.
  rewrite <- (Z2Nat.id (rfind p sep + 1)) by lia.
  rewrite !slice_to_nat. apply take_app_le. lia.
Qed.

Lemma head_splitext p x : sep ∉ x → head (fst (splitext p) ++ x) = head p.
Proof.
  intros Hx. rewrite head_app by done.
  rewrite <- (splitext_app p) at 2.
  symmetry. apply head_app, splitext_no_sep.
Qed.

Lemma endswith_spec s x : endswith s x = true ↔ ∃ l, s = l ++ x.
Proof.
  unfold endswith, len. rewrite andb_true_iff, Z.leb_le, bool_decide_eq_true.
  split.
  - intros [Hle Heq].
    rewrite <- Nat2Z.inj_sub, slice_from_nat in Heq by lia.
    exists (take (length s - length x) s).
    rewrite <- (take_drop (length s - length x) s) at 1. by rewrite Heq.
  - intros [l ->]. rewrite length_app. split; [lia|].
    replace (Z.of_nat (length l + length x) - Z.of_nat (length x))
      with (Z.of_nat (length l)) by lia.
    by rewrite slice_from_nat, drop_app_length.
Qed.

Lemma startswith_sep_false b : sep ∉ b → startswith b [sep] = false.
Proof.
  intros Hb. unfold startswith. apply bool_decide_eq_false_2.
  change (len [sep]) with (Z.of_nat 1). rewrite slice_to_nat.
  destruct b as [|c b]; [done|]. simpl. intros [= ->].
  apply Hb, elem_of_cons. by left.
Qed.

Lemma join_name a b : sep ∉ b → join a b = join_prefix a ++ b.
Proof.
  intros Hb. unfold join, join_prefix. rewrite startswith_sep_false by done.
  destruct (negb (truthy a) || endswith a [sep]); [done|].
  by rewrite <- app_assoc.
Qed.

Lemma join_prefix_shape a :
  join_prefix a = [] ∨ ∃ a', join_prefix a = a' ++ [sep].
Proof.
  unfold join_prefix. destruct a as [|c a]; [by left|]. right. simpl.
  destruct (endswith (c :: a) [sep]) eqn:He.
  - apply endswith_spec in He as [l Hl]. exists l. by rewrite Hl.
  - by exists (c :: a).
Qed.

Lemma rfind_sep_prefix pre name :
  (pre = [] ∨ ∃ a, pre = a ++ [sep]) → sep ∉ name →
  rfind (pre ++ name) sep = len pre - 1.
Proof.
  intros Hpre Hn. rewrite rfind_app, (rfind_absent name sep Hn). simpl.
  destruct Hpre as [->|[a ->]]; [done|].
  rewrite rfind_app. simpl.
  unfold len. rewrite length_app. simpl. lia.
Qed.

Lemma splitext_prefix pre name :
  (pre = [] ∨ ∃ a, pre = a ++ [sep]) → sep ∉ name →
  splitext (pre ++ name) = (pre ++ fst (splitext name), snd (splitext name)).
Proof.
  intros Hpre Hn. rewrite !splitext_eq. unfold has_extension.
  rewrite (rfind_sep_prefix pre name Hpre Hn), (rfind_absent name sep Hn).
  rewrite rfind_app.
  pose proof (rfind_range name extsep) as Hd.
  pose proof (rfind_range pre extsep) as Hp. unfold len in *.
  destruct (Z.leb_spec 0 (rfind name extsep)) as [Hdot|Hdot].
  - destruct (Z.gtb_spec (Z.of_nat (length pre) + rfind name extsep)
                         (Z.of_nat (length pre) - 1)); [|lia].
    destruct (Z.gtb_spec (rfind name extsep) (-1)); [|lia]. simpl.
    replace (Z.to_nat (Z.of_nat (length pre) + rfind name extsep
                       - (Z.of_nat (length pre) - 1 + 1)))
      with (Z.to_nat (rfind name extsep)) by lia.
    replace (Z.to_nat (Z.of_nat (length pre) - 1 + 1)) with (length pre) by lia.
    replace (Z.to_nat (rfind name extsep - (-1 + 1)))
      with (Z.to_nat (rfind name extsep)) by lia.
    replace (Z.to_nat (Z.of_nat (length pre) + rfind name extsep))
      with (length pre + Z.to_nat (rfind name extsep))%nat by lia.
    rewrite drop_app_length. simpl.
    rewrite take_app_add, drop_app_add.
    by destruct (all_dots _).
  - destruct (Z.gtb_spec (rfind pre extsep) (Z.of_nat (length pre) - 1)); [lia|].
    destruct (Z.gtb_spec (rfind name extsep) (-1)); [lia|]. done.
Qed.

End StringFacts.

(** ** Discovery *)

Lemma fsnode_nested_ind (P : fsnode → Prop) :
  (∀ r w, P (RegularFile r w)) →
  (∀ r w entries, Forall (λ e, P (snd e)) entries → P (Directory r w entries)) →
  ∀ n, P n.
Proof.
  intros Hf Hd. fix IH 1. intros [r w|r w entries]; [apply Hf|].
  apply Hd. induction entries as [|[name child] l IHl]; constructor; [apply IH|apply IHl].
Qed.

Section Discovery.
Context (env : Env).

Lemma get_video_files_loop_eq directory listing acc :
  get_video_files_loop directory listing acc =
    acc ++ map (join directory) (List.filter is_video_name listing).
Proof.
  revert acc. induction listing as [|file rest IH]; intros acc;
    cbn [get_video_files_loop List.filter map].
  - by rewrite app_nil_r.
  - fold (is_video_name file). rewrite IH.
    destruct (is_video_name file); [|done].
    by rewrite <- app_assoc.
Qed.

Lemma is_video_name_spec name :
  is_video_name name = true ↔
  ∃ ext, ext ∈ video_extensions ∧ ∃ l, lower name = l ++ ext.
Proof.
  unfold is_video_name, endswith_any. rewrite existsb_exists. split.
  - intros (ext & Hin & He). exists ext. split; [by apply list_elem_of_In|].
    by apply endswith_spec.
  - intros (ext & Hin & He). exists ext. split; [by apply list_elem_of_In|].
    by apply endswith_spec.
Qed.

Lemma get_video_files_result directory w found w' :
  get_video_files env directory w = (Ret found, w') →
  ∃ wr entries,
    lookup_path env directory = Some (Directory true wr entries) ∧
    found = map (join directory) (List.filter is_video_name (entry_names entries)).
Proof.
  unfold get_video_files, os_listdir, bind, modify, ret, raise. simpl.
  destruct (lookup_path env directory) as [[r wr|[|] wr entries]|]; simpl;
    intros [= <- <-]. 
  exists wr, entries. split; [done|]. by rewrite get_video_files_loop_eq.
Qed.

Lemma valid_name_spec name :
  valid_name name = true ↔ name ≠ [] ∧ sep ∉ name.
Proof.
  unfold valid_name.
  rewrite andb_true_iff, !negb_true_iff, !bool_decide_eq_false. tauto.
Qed.

Lemma last_valid_name prefix name :
  valid_name name = true → last (prefix ++ name) ≠ Some sep.
Proof.
  intros [Hne Hsep]%valid_name_spec Hlast.
  destruct (decide (name = [])) as [|Hn]; [done|].
  apply exists_last in Hn as (name' & c & ->).
  rewrite app_assoc, last_snoc in Hlast. injection Hlast as ->.
  apply Hsep, elem_of_app. right. by apply list_elem_of_singleton.
Qed.

Lemma join_below prefix name :
  prefix ≠ [] → last prefix ≠ Some sep → valid_name name = true →
  join prefix name = prefix ++ sep :: name.
Proof.
  intros Hne Hlast [_ Hsep]%valid_name_spec.
  rewrite join_name by done. unfold join_prefix.
  destruct prefix as [|c prefix]; [done|]. simpl.
  destruct (endswith (c :: prefix) [sep]) eqn:He.
  - apply endswith_spec in He as [l Hl]. rewrite Hl, last_snoc in Hlast. done.
  - simpl. by rewrite <- app_assoc.
Qed.

Lemma wf_node_entries r w entries name child :
  wf_node (Directory r w entries) = true → (name, child) ∈ entries →
  valid_name name = true ∧ wf_node child = true.
Proof.
  simpl. rewrite forallb_forall. intros Hall Hin.
  apply list_elem_of_In, Hall in Hin. simpl in Hin.
  by apply andb_true_iff in Hin.
Qed.

Lemma descendants_below node :
  wf_node node = true →
  ∀ prefix q, prefix ≠ [] → last prefix ≠ Some sep →
    q ∈ descendants prefix node → ∃ rest, q = prefix ++ sep :: rest.
Proof.
  induction node as [r w|r w entries IH] using fsnode_nested_ind;
    intros Hwf prefix q Hne Hlast Hq; simpl in Hq.
  - by apply elem_of_nil in Hq.
  - apply list_elem_of_In, in_flat_map in Hq as ([name child] & Hin & Hq).
    apply list_elem_of_In in Hin.
    destruct (wf_node_entries _ _ _ _ _ Hwf Hin) as [Hname Hchild].
    rewrite Forall_forall in IH. specialize (IH _ Hin). simpl in IH, Hq.
    rewrite (join_below prefix name Hne Hlast Hname) in Hq.
    destruct Hq as [<-|Hq]; [by eexists|].
    apply list_elem_of_In in Hq.
    apply IH in Hq as [rest ->]; [|done|by destruct prefix|].
    + exists (name ++ sep :: rest). by rewrite <- app_assoc.
    + rewrite cons_middle, app_assoc. by apply last_valid_name.
Qed.

Lemma subdirectory_entries_not_found directory r w entries sub child q :
  wf_node (Directory r w entries) = true →
  (sub, child) ∈ entries →
  q ∈ descendants (join directory sub) child →
  q ∉ map (join directory) (List.filter is_video_name (entry_names entries)).
Proof.
  intros Hwf Hin Hq Hfound.
  destruct (wf_node_entries _ _ _ _ _ Hwf Hin) as [Hsub Hchild].
  pose proof Hsub as [Hsubne Hsubsep]%valid_name_spec.
  rewrite join_name in Hq by done.
  apply descendants_below in Hq as [rest ->]; [|done| |].
  - apply list_elem_of_In, in_map_iff in Hfound as (name & Heq & Hname).
    apply filter_In in Hname as [Hname _].
    apply in_map_iff in Hname as ([name' child'] & <- & Hin').
    apply list_elem_of_In in Hin'.
    destruct (wf_node_entries _ _ _ _ _ Hwf Hin') as [Hn _].
    apply valid_name_spec in Hn as [_ Hn]. simpl in Heq, Hn.
    rewrite join_name in Heq by done.
    rewrite <- app_assoc in Heq. apply app_inv_head in Heq.
    apply Hn. rewrite Heq. apply elem_of_app. right. apply elem_of_cons. by left.
  - destruct sub; [done|]. by destruct (join_prefix directory).
  - by apply last_valid_name.
Qed.


End Discovery.

(** ** Rules for [triple] *)

Section Triples.
Context {A B : Type}.
Implicit Types (P : event → Prop) (E : pyexn → Prop).

Lemma new_events_eq (m : Py World A) w evs :
  trace (snd (m w)) = trace w ++ evs → new_events m w = evs.
Proof. intros H. unfold new_events. by rewrite H, drop_app_length. Qed.

Lemma triple_new_events (m : Py World A) P Q E w :
  triple m P Q E → Forall P (new_events m w).
Proof.
  intros H. destruct (H w) as (evs & Ht & Hall & _).
  by rewrite (new_events_eq _ _ _ Ht).
Qed.

Lemma triple_ret (a : A) P (Q : A → Prop) E : Q a → triple (ret a) P Q E.
Proof. intros Ha w. exists []. simpl. rewrite app_nil_r. auto. Qed.

Lemma triple_raise e P (Q : A → Prop) E : E e → triple (raise e) P Q E.
Proof. intros He w. exists []. simpl. rewrite app_nil_r. auto. Qed.

Lemma triple_gets (f : World → A) P (Q : A → Prop) E :
  (∀ w, Q (f w)) → triple (gets f) P Q E.
Proof. intros Hf w. exists []. simpl. rewrite app_nil_r. auto. Qed.

Lemma triple_bind (m : Py World A) (k : A → Py World B) P Q1
    (Q : B → Prop) E :
  triple m P Q1 E → (∀ a, Q1 a → triple (k a) P Q E) →
  triple (bind m k) P Q E.
Proof.
  intros Hm Hk w. unfold bind.
  destruct (Hm w) as (evs1 & Ht1 & Hall1 & Hf1 & Hpost).
  destruct (m w) as [[a|e] w1]; simpl in *.
  - destruct (Hk a Hpost w1) as (evs2 & Ht2 & Hall2 & Hf2 & Hpost2).
    exists (evs1 ++ evs2). rewrite Ht2, Ht1, <- app_assoc.
    split; [done|]. split; [by apply Forall_app|]. split; [|done].
    intros path. destruct (Hf2 path) as [->|Hin].
    + destruct (Hf1 path) as [->|Hin]; [by left|].
      right. apply elem_of_app. by left.
    + right. apply elem_of_app. by right.
  - by exists evs1.
Qed.

Lemma triple_try_except (catches : pyexn → bool) (body : Py World A)
    (handler : pyexn → Py World A) P E1 (Q : A → Prop) E :
  triple body P Q E1 →
  (∀ e, E1 e → if catches e then triple (handler e) P Q E else E e) →
  triple (try_except catches body handler) P Q E.
Proof.
  intros Hb Hh w. unfold try_except.
  destruct (Hb w) as (evs1 & Ht1 & Hall1 & Hf1 & Hpost).
  destruct (body w) as [[a|e] w1]; simpl in *.
  - by exists evs1.
  - specialize (Hh e Hpost). destruct (catches e).
    + destruct (Hh w1) as (evs2 & Ht2 & Hall2 & Hf2 & Hpost2).
      exists (evs1 ++ evs2). rewrite Ht2, Ht1, <- app_assoc.
      split; [done|]. split; [by apply Forall_app|]. split; [|done].
      intros path. destruct (Hf2 path) as [->|Hin].
      * destruct (Hf1 path) as [->|Hin]; [by left|].
        right. apply elem_of_app. by left.
      * right. apply elem_of_app. by right.
    + by exists evs1.
Qed.

Lemma triple_conseq (m : Py World A) (P P' : event → Prop)
    (Q Q' : A → Prop) E E' :
  triple m P Q E →
  (∀ e, P e → P' e) → (∀ a, Q a → Q' a) → (∀ e, E e → E' e) →
  triple m P' Q' E'.
Proof.
  intros Hm HP HQ HE w. destruct (Hm w) as (evs & Ht & Hall & Hf & Hpost).
  exists evs. split; [done|]. split; [by eapply Forall_impl|].
  split; [done|]. destruct (fst (m w)); auto.
Qed.

End Triples.

Lemma triple_emit e P (Q : unit → Prop) E :
  P e → Q tt → triple (modify (emit e)) P Q E.
Proof.
  intros He Hq w. exists [e]. simpl.
  split; [done|]. split; [by constructor|]. auto.
Qed.

Lemma triple_modify f P (Q : unit → Prop) E :
  (∀ w, trace (f w) = trace w) → (∀ w, files (f w) = files w) → Q tt →
  triple (modify f) P Q E.
Proof.
  intros Ht Hf Hq w. exists []. simpl. rewrite Ht, Hf, app_nil_r. auto.
Qed.

(** One [emit] followed by the rest of a statement. *)
Ltac emit_step :=
  eapply triple_bind;
  [apply triple_emit with (Q := fun _ => True); [simpl; eauto|exact I]
  |intros _ _].

(** A library call that emits one event and returns a value. *)
Lemma triple_emit_ret {A} e (v : A) (P : event → Prop) E :
  P e → triple (bind (modify (emit e)) (fun _ => ret v)) P (fun x => x = v) E.
Proof. intros He. emit_step. by apply triple_ret. Qed.

Ltac call_step :=
  eapply triple_bind; [apply triple_emit_ret; simpl; eauto|intros ? ->].

(** ** The extractor *)

Lemma fresh_session (ss : gmap nat pystr) : ss !! fresh (dom ss) = None.
Proof. apply not_elem_of_dom, is_fresh. Qed.

Lemma extract_first_frame_eq env video_path w :
  extract_first_frame env video_path w = extract_result env video_path w.
Proof.
  unfold extract_first_frame, extract_result, call, try_finally, try_except,
    load_video_capture, cv2_VideoCapture, cap_isOpened, cap_read, cv2_imwrite,
    cap_release, log, global, local, assign, bind, gets, modify, ret, raise.
  simpl.
  destruct (cv_open env (files w) video_path) as [cls msg| |]; simpl.
  - done.
  - rewrite fresh_session. simpl. done.
  - repeat (rewrite lookup_insert_eq; simpl).
    destruct (cv_read env (files w) video_path) as [cls msg| |f]; simpl.
    + done.
    + done.
    + destruct (cv_imwrite env (files w) (output_path_of video_path) f)
        as [cls msg| |]; simpl; done.
Qed.

Section Extractor.
Context (env : Env).

Lemma extract_sessions video_path w :
  sessions (snd (extract_first_frame env video_path w)) = sessions w.
Proof.
  rewrite extract_first_frame_eq. unfold extract_result, released.
  pose proof (fresh_session (sessions w)) as Hfresh.
  destruct (cv_open _ _ _); [done|simpl; by apply delete_id|].
  destruct (cv_read _ _ _); [| |destruct (cv_imwrite _ _ _ _)]; simpl;
    by rewrite delete_insert_eq, delete_id.
Qed.

Lemma extract_installed video_path w :
  installed (snd (extract_first_frame env video_path w)) = installed w.
Proof.
  rewrite extract_first_frame_eq. unfold extract_result, released.
  destruct (cv_open _ _ _); [done|done|].
  destruct (cv_read _ _ _); [| |destruct (cv_imwrite _ _ _ _)]; done.
Qed.

Lemma extract_files video_path w path :
  path ≠ output_path_of video_path →
  files (snd (extract_first_frame env video_path w)) !! path = files w !! path.
Proof.
  intros Hne. rewrite extract_first_frame_eq. unfold extract_result, released.
  destruct (cv_open _ _ _); [done|done|].
  destruct (cv_read _ _ _); [| |destruct (cv_imwrite _ _ _ _)]; simpl;
    try done.
  by rewrite lookup_insert_ne.
Qed.

Lemma extract_trace video_path w :
  ∃ evs, trace (snd (extract_first_frame env video_path w))
         = trace w ++ EvVideoCapture video_path :: evs ∧
         capture_calls evs = [] ∧ summaries evs = [] ∧
         Forall (extract_event video_path) evs ∧
         ∀ path, files (snd (extract_first_frame env video_path w)) !! path
                 = files w !! path ∨ EvImwrite path ∈ evs.
Proof.
  rewrite extract_first_frame_eq. unfold extract_result, released.
  destruct (cv_open _ _ _);
    [| |destruct (cv_read _ _ _); [| |destruct (cv_imwrite _ _ _ _)]];
    simpl; rewrite <- ?app_assoc; simpl; eexists; (split; [reflexivity|]);
    (split; [reflexivity|]); (split; [reflexivity|]);
    (split; [repeat constructor|]); intros path; auto.
  destruct (decide (path = output_path_of video_path)) as [->|Hne].
  - right. apply elem_of_cons. right. apply elem_of_cons. by left.
  - left. by rewrite lookup_insert_ne.
Qed.

Lemma extract_outcome video_path w :
  match fst (extract_first_frame env video_path w) with
  | Ret r => (∀ cls msg, cv_open env (files w) video_path ≠ OpenRaises cls msg)
             ∧ (r = None ∨ r = Some (output_path_of video_path))
  | Raise e => e = unbound_error ∧
               ∃ cls msg, cv_open env (files w) video_path = OpenRaises cls msg
  end.
Proof.
  rewrite extract_first_frame_eq. unfold extract_result.
  destruct (cv_open _ _ _);
    [| |destruct (cv_read _ _ _); [| |destruct (cv_imwrite _ _ _ _)]];
    simpl; eauto.
Qed.

Lemma triple_extract video_path :
  triple (extract_first_frame env video_path) (extract_event video_path)
    (fun r => r = None ∨ r = Some (output_path_of video_path))
    (fun e => e = unbound_error).
Proof.
  intros w.
  destruct (extract_trace video_path w) as (evs & Ht & _ & _ & Hall & Hf).
  exists (EvVideoCapture video_path :: evs). split; [done|].
  split; [by constructor|]. split.
  - intros path. destruct (Hf path) as [?|?]; [by left|].
    right. apply elem_of_cons. by right.
  - pose proof (extract_outcome video_path w) as Ho.
    destruct (fst _); tauto.
Qed.

End Extractor.

(** ** The loop of [main] *)

Section Pass.
Context (env : Env).

Lemma capture_calls_app t1 t2 :
  capture_calls (t1 ++ t2) = capture_calls t1 ++ capture_calls t2.
Proof. apply omap_app. Qed.

Lemma summaries_app t1 t2 : summaries (t1 ++ t2) = summaries t1 ++ summaries t2.
Proof. apply omap_app. Qed.

Lemma process_videos_cons video_file rest finished successful failed w :
  process_videos env (video_file :: rest) finished successful failed w =
    match extract_first_frame env video_file w with
    | (Ret r, w1) =>
        let w2 := emit (EvProgress (S finished)) w1 in
        if truthy_opt r
        then process_videos env rest (S finished) (successful + 1) failed w2
        else process_videos env rest (S finished) successful (failed + 1) w2
    | (Raise e, w1) => (Raise e, w1)
    end.
Proof.
  simpl. unfold bind at 1.
  destruct (extract_first_frame env video_file w) as [[r|e] w1]; [|done].
  unfold bind, modify. simpl. by destruct (truthy_opt r).
Qed.

Lemma pass_event_cons video_file rest e :
  pass_event rest e → pass_event (video_file :: rest) e.
Proof.
  intros [(p & Hp & He)|Hn]; [left|by right].
  exists p. split; [|done]. apply elem_of_cons. by right.
Qed.

(** The counters add up to the number of files, and the loop raises
    nothing but what the extractor lets through. *)
Lemma triple_process_videos video_files finished successful failed :
  triple (process_videos env video_files finished successful failed)
    (pass_event video_files)
    (fun c => (fst c + snd c = successful + failed + length video_files)%nat)
    (fun e => e = unbound_error).
Proof.
  revert finished successful failed.
  induction video_files as [|video_file rest IH];
    intros finished successful failed; simpl.
  - apply triple_ret. simpl. lia.
  - eapply triple_bind.
    { eapply triple_conseq; [apply triple_extract| |done|done].
      intros e He. left. exists video_file. split; [|done].
      apply elem_of_cons. by left. }
    intros r _. eapply triple_bind.
    { apply triple_emit with (Q := fun _ => True); [|done]. right. by eexists. }
    intros _ _.
    destruct (truthy_opt r);
      (eapply triple_conseq; [apply IH|apply pass_event_cons| |done]);
      simpl; intros c; lia.
Qed.

(** The pass over the whole list when no constructor raises. *)
Lemma process_videos_complete video_files finished successful failed w :
  no_open_error env →
  ∃ c w', process_videos env video_files finished successful failed w
          = (Ret c, w') ∧
          capture_calls (trace w') = capture_calls (trace w) ++ video_files.
Proof.
  intros Hno. revert finished successful failed w.
  induction video_files as [|video_file rest IH];
    intros finished successful failed w.
  - exists (successful, failed), w. by rewrite app_nil_r.
  - rewrite process_videos_cons.
    pose proof (extract_outcome env video_file w) as Ho.
    destruct (extract_trace env video_file w) as (evs & Ht & Hc & _).
    destruct (extract_first_frame env video_file w) as [[r|e] w1]; simpl in *.
    2: { destruct Ho as [_ (cls & msg & Hopen)]. by apply Hno in Hopen. }
    assert (capture_calls (trace (emit (EvProgress (S finished)) w1))
            = capture_calls (trace w) ++ [video_file]) as Hcalls.
    { simpl. rewrite Ht, !capture_calls_app. simpl. rewrite Hc.
      by rewrite app_nil_r. }
    destruct (truthy_opt r);
      [destruct (IH (S finished) (successful + 1)%nat failed
                   (emit (EvProgress (S finished)) w1)) as (c & w' & Hr & Hcc)
      |destruct (IH (S finished) successful (failed + 1)%nat
                   (emit (EvProgress (S finished)) w1)) as (c & w' & Hr & Hcc)];
      exists c, w'; (split; [done|]);
      by rewrite Hcc, Hcalls, <- app_assoc.
Qed.

End Pass.

(** ** [main] *)

Section Main.
Context (env : Env).

Lemma main_startup w : main env w = bind (startup env) (run_directory env) w.
Proof.
  unfold main, startup, run_directory, bind.
  destruct (check_dependencies env w) as [[[]|e] w1]; [|done].
  by destruct (import_module env (py "tqdm") w1) as [[[]|e] w2].
Qed.

Lemma triple_import_module name :
  triple (import_module env name) (startup_event env) (fun _ => True)
    (fun e => is_instance ImportError e = true).
Proof.
  unfold import_module. emit_step.
  eapply triple_bind; [by apply triple_gets with (Q := fun _ => True)|].
  intros pkgs _. destruct (can_import env pkgs name).
  - by apply triple_ret.
  - by apply triple_raise.
Qed.

Lemma triple_pip_check_call package :
  package ∈ required_packages →
  triple (pip_check_call env package) (startup_event env) (fun _ => True)
    is_py_error.
Proof.
  intros Hin. unfold pip_check_call. emit_step. destruct (_ =? _).
  - by apply triple_modify.
  - apply triple_raise. by eexists _, _.
Qed.

Lemma triple_check_dependencies_loop packages :
  packages ⊆ required_packages →
  triple (check_dependencies_loop env packages) (startup_event env)
    (fun _ => True) is_py_error.
Proof.
  induction packages as [|package rest IH]; intros Hsub; simpl.
  - by apply triple_ret.
  - eapply triple_bind with (Q1 := fun _ => True).
    + eapply triple_try_except; [apply triple_import_module|].
      intros e He. simpl in He. rewrite He.
      unfold log. emit_step.
      apply triple_pip_check_call, Hsub, elem_of_cons. by left.
    + intros _ _. apply IH. intros x Hx. apply Hsub, elem_of_cons. by right.
Qed.

Lemma triple_input :
  triple (input env) (startup_event env)
    (fun line => stdin_line env = Some line) is_py_error.
Proof.
  unfold input. emit_step. destruct (stdin_line env); [by apply triple_ret|].
  apply triple_raise. by eexists _, _.
Qed.

Lemma triple_startup :
  triple (startup env) (startup_event env)
    (fun d => requested_directory env = Some d) is_py_error.
Proof.
  unfold startup. eapply triple_bind.
  { by apply triple_check_dependencies_loop. }
  intros _ _. eapply triple_bind.
  { eapply triple_conseq; [apply triple_import_module|done|done|].
    intros [c|cls msg]; [done|]. by eexists _, _. }
  intros _ _. unfold requested_directory.
  destruct (argv env) as [|a0 [|directory rest]];
    (by apply triple_ret) || apply triple_input.
Qed.

Lemma triple_validate_directory directory :
  triple (validate_directory env directory) (lookup_event directory)
    (fun valid => valid = valid_directory env directory) (fun _ => False).
Proof.
  unfold validate_directory, os_path_exists, os_path_isdir, os_access_rw,
    valid_directory, log.
  call_step.
  destruct (lookup_path env directory) as [[r w|r w entries]|] eqn:Hl; simpl.
  - call_step. simpl. emit_step. by apply triple_ret.
  - call_step. simpl. call_step.
    destruct (r && w); simpl; [by apply triple_ret|].
    emit_step. by apply triple_ret.
  - emit_step. by apply triple_ret.
Qed.

Lemma triple_get_video_files directory :
  valid_directory env directory = true →
  triple (get_video_files env directory) (lookup_event directory)
    (fun found => found = candidates env directory) (fun _ => False).
Proof.
  unfold valid_directory, get_video_files, os_listdir, candidates, listing.
  intros Hvalid.
  destruct (lookup_path env directory) as [[r w|r w entries]|]; try done.
  apply andb_true_iff in Hvalid as [-> _].
  call_step. apply triple_ret. apply get_video_files_loop_eq.
Qed.

Lemma lookup_event_directory directory e :
  lookup_event directory e → directory_event env directory e.
Proof. by destruct e as [[] []| | | | | | | | | |]. Qed.

Lemma lookup_events_quiet directory evs :
  Forall (lookup_event directory) evs →
  capture_calls evs = [] ∧ summaries evs = [].
Proof.
  induction 1 as [|e evs He _ [IH1 IH2]]; [done|].
  by destruct e as [[] []| | | | | | | | | |].
Qed.

Lemma triple_run_directory directory :
  triple (run_directory env directory) (directory_event env directory)
    (fun _ => run_directory_returns env directory)
    (run_directory_raises env directory).
Proof.
  unfold run_directory.
  eapply triple_bind.
  { eapply triple_conseq;
      [apply triple_validate_directory|apply lookup_event_directory|done|done]. }
  intros ? ->. destruct (valid_directory env directory) eqn:Hvalid; simpl.
  2: { apply triple_raise. left. by rewrite Hvalid. }
  eapply triple_bind.
  { eapply triple_conseq;
      [by apply triple_get_video_files|apply lookup_event_directory
      |done|done]. }
  intros ? ->. destruct (candidates env directory) as [|c cs] eqn:Hc.
  - unfold log. emit_step. apply triple_raise. right. left.
    by rewrite Hvalid, Hc.
  - rewrite <- Hc. unfold log. emit_step. eapply triple_bind.
    { eapply triple_conseq with
        (Q' := fun c => (fst c + snd c = length (candidates env directory))%nat);
        [apply triple_process_videos| |done|].
      - intros e [(p & Hp & He)|[n ->]]; [|done].
        destruct e as [[] []| | | | | | | | | |]; simpl in *; subst; try done.
        by exists p.
      - intros e ->. right. right. by rewrite Hvalid, Hc. }
    intros counts Hcounts. apply triple_emit; [done|].
    split; [done|]. by rewrite Hc.
Qed.

(** A run is its start-up followed by the work on the directory. *)
Lemma main_phases w :
  ∃ evs1 evs2,
    new_events (main env) w = evs1 ++ evs2 ∧
    Forall (startup_event env) evs1 ∧
    (∀ path, files (snd (main env w)) !! path = files w !! path
             ∨ EvImwrite path ∈ evs2) ∧
    ((∃ e, fst (main env w) = Raise e ∧ is_py_error e ∧ evs2 = []) ∨
     (∃ d, requested_directory env = Some d ∧
           Forall (directory_event env d) evs2 ∧
           match fst (main env w) with
           | Ret _ => run_directory_returns env d
           | Raise e => run_directory_raises env d e
           end)).
Proof.
  rewrite main_startup.
  assert (new_events (main env) w
          = new_events (bind (startup env) (run_directory env)) w) as ->.
  { unfold new_events. by rewrite main_startup. }
  destruct (triple_startup w) as (evs1 & Ht1 & Hall1 & Hf1 & Hpost1).
  assert (∀ path, files (snd (startup env w)) !! path = files w !! path)
    as Hfiles.
  { intros path. destruct (Hf1 path) as [?|Hin]; [done|].
    rewrite Forall_forall in Hall1. by apply Hall1 in Hin. }
  unfold new_events, bind.
  destruct (startup env w) as [[d|e] w1]; simpl in *.
  - destruct (triple_run_directory d w1) as (evs2 & Ht2 & Hall2 & Hf2 & Hpost2).
    exists evs1, evs2. rewrite Ht2, Ht1, <- app_assoc, drop_app_length.
    split; [done|]. split; [done|]. split.
    + intros path. rewrite <- Hfiles. apply Hf2.
    + right. by exists d.
  - exists evs1, []. rewrite Ht1, drop_app_length, app_nil_r.
    split; [done|]. split; [done|]. split; [by left|].
    left. by exists e.
Qed.

(** Once the directory is validated and has candidates, [run_directory]
    is the loop followed by the summary. *)
Lemma run_directory_pass directory w :
  valid_directory env directory = true → candidates env directory ≠ [] →
  ∃ w2 evs0,
    trace w2 = trace w ++ evs0 ∧
    capture_calls evs0 = [] ∧ summaries evs0 = [] ∧
    run_directory env directory w =
      bind (process_videos env (candidates env directory) 0 0 0)
        (fun counts =>
           log INFO (ProcessingComplete (length (candidates env directory))
                       (fst counts) (snd counts))) w2.
Proof.
  intros Hvalid Hcands. unfold run_directory. unfold bind at 1.
  destruct (triple_validate_directory directory w)
    as (evs1 & Ht1 & Hall1 & _ & Hpost1).
  destruct (validate_directory env directory w) as [[valid|e] w1];
    simpl in *; [subst valid|done].
  rewrite Hvalid. simpl. unfold bind at 1.
  destruct (triple_get_video_files directory Hvalid w1)
    as (evs2 & Ht2 & Hall2 & _ & Hpost2).
  destruct (get_video_files env directory w1) as [[found|e] w1'];
    simpl in *; [subst found|done].
  destruct (candidates env directory) as [|c cs] eqn:Hc; [done|].
  rewrite <- Hc. unfold bind at 1. simpl.
  eexists _, (evs1 ++ evs2 ++ [_]). split; [|split; [|split; [|reflexivity]]].
  - simpl. by rewrite Ht2, Ht1, <- !app_assoc.
  - apply lookup_events_quiet in Hall1 as [Hc1 _].
    apply lookup_events_quiet in Hall2 as [Hc2 _].
    by rewrite !capture_calls_app, Hc1, Hc2.
  - apply lookup_events_quiet in Hall1 as [_ Hs1].
    apply lookup_events_quiet in Hall2 as [_ Hs2].
    by rewrite !summaries_app, Hs1, Hs2.
Qed.

(** When no constructor raises, the loop reaches every candidate, in
    order, and the run ends with the summary. *)
Lemma run_directory_completes directory w :
  no_open_error env →
  valid_directory env directory = true → candidates env directory ≠ [] →
  fst (run_directory env directory w) = Ret tt ∧
  capture_calls (new_events (run_directory env directory) w)
  = candidates env directory ∧
  ∃ successful failed,
    summaries (new_events (run_directory env directory) w)
    = [(length (candidates env directory), successful, failed)].
Proof.
  intros Hno Hvalid Hcands.
  destruct (run_directory_pass directory w Hvalid Hcands)
    as (w2 & evs0 & Ht0 & Hc0 & Hs0 & Hrun).
  unfold new_events. rewrite Hrun. unfold bind.
  destruct (process_videos_complete env (candidates env directory) 0 0 0 w2 Hno)
    as (c & w3 & Hpass & Hcalls).
  destruct (triple_process_videos env (candidates env directory) 0 0 0 w2)
    as (evs & Ht & Hall & _).
  rewrite Hpass in *. simpl in *.
  rewrite Ht, Ht0, <- !app_assoc, drop_app_length.
  rewrite Ht, !capture_calls_app in Hcalls. apply app_inv_head in Hcalls.
  split; [done|]. split.
  - rewrite !capture_calls_app, Hc0, Hcalls. simpl. by rewrite app_nil_r.
  - exists (fst c), (snd c). rewrite !summaries_app, Hs0. simpl.
    assert (summaries evs = []) as ->; [|done].
    clear -Hall. induction Hall as [|e evs He _ IH]; [done|].
    destruct He as [(p & _ & He)|[n ->]]; [|done].
    by destruct e as [[] []| | | | | | | | | |].
Qed.

End Main.

(** * The claims *)

(** ** Discovery (C6, C10) *)

(** C6: discovery returns only direct entries of the directory whose
    lower-cased name ends in one of the six video suffixes; when the names
    in the tree are well formed, nothing below a subdirectory, at any
    depth, is returned. *)
Theorem C6_discovery_direct_video_entries
    (env : Env) (directory : pystr) (w w' : World) (found : list pystr) :
  get_video_files env directory w = (Ret found, w') →
  ∃ writable entries,
    lookup_path env directory = Some (Directory true writable entries) ∧
    (∀ path, path ∈ found →
       ∃ name, name ∈ entry_names entries ∧ path = join directory name ∧
               ∃ ext, ext ∈ video_extensions ∧ ∃ l, lower name = l ++ ext) ∧
    (wf_node (Directory true writable entries) = true →
     ∀ sub child q, (sub, child) ∈ entries →
       q ∈ descendants (join directory sub) child → q ∉ found).
Proof.
  intros Hrun.
  destruct (get_video_files_result env _ _ _ _ Hrun)
    as (writable & entries & Hlookup & ->).
  exists writable, entries. split; [done|]. split.
  - intros path Hpath.
    apply list_elem_of_In, in_map_iff in Hpath as (name & <- & Hname).
    apply filter_In in Hname as [Hin Hvideo].
    exists name. split; [by apply list_elem_of_In|]. split; [done|].
    by apply is_video_name_spec.
  - intros Hwf sub child q Hsub Hq.
    by eapply subdirectory_entries_not_found.
Qed.

Lemma C6_witness :
  ∃ found w',
    get_video_files Sample.env_ok Sample.videos (initial_world ∅)
    = (Ret found, w') ∧
    py "/videos/a.mp4" ∈ found ∧
    py "/videos/clips.mov/deep.mp4" ∉ found.
Proof.
  assert (get_video_files Sample.env_ok Sample.videos (initial_world ∅)
          = (Ret [py "/videos/a.mp4"; py "/videos/B.AVI";
                  py "/videos/clips.mov"],
             emit (EvListdir Sample.videos) (initial_world ∅))) as Hrun.
  { vm_compute. reflexivity. }
  eexists _, _. split; [exact Hrun|]. split; [by left|].
  destruct (C6_discovery_direct_video_entries _ _ _ _ _ Hrun)
    as (writable & entries & Hlookup & _ & Hsub).
  vm_compute in Hlookup. injection Hlookup as <- <-.
  apply (Hsub eq_refl (py "clips.mov")
           (Directory true true [(py "deep.mp4", RegularFile true true)])).
  - do 3 right. left.
  - vm_compute. left.
Defined.

(** C10: the suffix test is the only test of discovery.  Every entry of
    the listing whose lower-cased name ends in a video suffix is returned,
    whatever the entry is: a regular file or a directory. *)
Theorem C10_discovery_is_lexical
    (env : Env) (directory : pystr) (w w' : World) (found : list pystr)
    (writable : bool) (entries : list (pystr * fsnode)) :
  get_video_files env directory w = (Ret found, w') →
  lookup_path env directory = Some (Directory true writable entries) →
  found = map (join directory)
            (List.filter is_video_name (entry_names entries)) ∧
  ∀ name node, (name, node) ∈ entries →
    endswith_any (lower name) video_extensions = true →
    join directory name ∈ found.
Proof.
  intros Hrun Hlookup.
  destruct (get_video_files_result env _ _ _ _ Hrun)
    as (writable' & entries' & Hlookup' & ->).
  rewrite Hlookup in Hlookup'. injection Hlookup' as <- <-.
  split; [done|]. intros name node Hin Hvideo.
  apply list_elem_of_In, in_map, filter_In. split; [|done].
  apply in_map_iff. exists (name, node). split; [done|].
  by apply list_elem_of_In.
Qed.

Lemma C10_witness :
  ∃ found w',
    get_video_files Sample.env_ok Sample.videos (initial_world ∅)
    = (Ret found, w') ∧
    join Sample.videos (py "clips.mov") ∈ found.
Proof.
  assert (get_video_files Sample.env_ok Sample.videos (initial_world ∅)
          = (Ret [py "/videos/a.mp4"; py "/videos/B.AVI";
                  py "/videos/clips.mov"],
             emit (EvListdir Sample.videos) (initial_world ∅))) as Hrun.
  { vm_compute. reflexivity. }
  eexists _, _. split; [exact Hrun|].
  assert (lookup_path Sample.env_ok Sample.videos
          = Some Sample.tree) as Hlookup by (vm_compute; reflexivity).
  destruct (C10_discovery_is_lexical _ _ _ _ _ _ _ Hrun Hlookup)
    as [_ Hall].
  apply (Hall (py "clips.mov")
           (Directory true true [(py "deep.mp4", RegularFile true true)])).
  - do 3 right. left.
  - vm_compute. reflexivity.
Defined.

(** ** The extractor (C7, C3, C1, C4) *)

Lemma suffix_no_sep : sep ∉ py "_first_frame.png".
Proof.
  intros Hin. apply list_elem_of_In in Hin. simpl in Hin.
  repeat (destruct Hin as [Hin|Hin]; [discriminate|]). done.
Qed.

Lemma dirname_output_path video_path :
  dirname (output_path_of video_path) = dirname video_path.
Proof.
  unfold dirname, output_path_of.
  by rewrite (head_splitext video_path _ suffix_no_sep).
Qed.

(** A last component [stem.e] loses [.e], unless [stem] is made of dots. *)
Lemma splitext_strips pre stem e :
  (pre = [] ∨ ∃ a, pre = a ++ [sep]) →
  (sep ∉ stem) → all_dots stem = false → (extsep ∉ e) → (sep ∉ e) →
  splitext (pre ++ stem ++ extsep :: e) = (pre ++ stem, extsep :: e).
Proof.
  intros Hpre Hstem Hdots He Hsep.
  assert (sep ∉ stem ++ extsep :: e) as Hname.
  { intros [?|Hin]%elem_of_app; [done|].
    apply elem_of_cons in Hin as [?|?]; done. }
  rewrite (splitext_prefix pre _ Hpre Hname).
  assert (splitext (stem ++ extsep :: e) = (stem, extsep :: e)) as ->; [|done].
  rewrite splitext_eq. unfold has_extension.
  rewrite (rfind_absent _ sep Hname), rfind_app. simpl.
  rewrite (rfind_absent e extsep He). simpl.
  rewrite Z.add_0_r. unfold len.
  destruct (Z.gtb_spec (Z.of_nat (length stem)) (-1)); [|lia]. simpl.
  replace (Z.to_nat (Z.of_nat (length stem) - (-1 + 1))) with (length stem)
    by lia.
  change (Z.to_nat (-1 + 1)) with 0%nat.
  by rewrite drop_0, Nat2Z.id, take_app_length, drop_app_length, Hdots.
Qed.

(** What a successful write leaves behind. *)
Lemma extract_write_true env video_path w f :
  cv_open env (files w) video_path = Opened →
  cv_read env (files w) video_path = FirstFrame f →
  cv_imwrite env (files w) (output_path_of video_path) f = WriteTrue →
  fst (extract_first_frame env video_path w)
  = Ret (Some (output_path_of video_path)) ∧
  files (snd (extract_first_frame env video_path w))
  = <[output_path_of video_path := PngImage f]> (files w) ∧
  new_events (extract_first_frame env video_path) w
  = [EvVideoCapture video_path; EvRead (fresh (dom (sessions w)));
     EvImwrite (output_path_of video_path);
     EvRelease (fresh (dom (sessions w)))].
Proof.
  intros Hopen Hread Hwrite. unfold new_events.
  rewrite extract_first_frame_eq. unfold extract_result.
  rewrite Hopen, Hread, Hwrite. simpl.
  split; [done|]. split; [done|].
  by rewrite <- !app_assoc, drop_app_length.
Qed.

(** C7: the output path is the source path without its extension (as
    [os.path.splitext] cuts it) followed by [_first_frame.png]; its
    directory is the directory of the source; and a successful write
    replaces whatever the output path held, with no look at it before. *)
Theorem C7_output_path_beside_source (video_path : pystr) :
  let out := output_path_of video_path in
  let root := fst (splitext video_path) in
  let ext := snd (splitext video_path) in
  out = root ++ py "_first_frame.png" ∧
  video_path = root ++ ext ∧
  (ext = [] ∨ ∃ e, ext = extsep :: e ∧ (extsep ∉ e) ∧ (sep ∉ e)) ∧
  (∀ pre stem e,
     video_path = pre ++ stem ++ extsep :: e →
     (pre = [] ∨ ∃ a, pre = a ++ [sep]) →
     (sep ∉ stem) → all_dots stem = false → (extsep ∉ e) → (sep ∉ e) →
     out = pre ++ stem ++ py "_first_frame.png") ∧
  head out = head video_path ∧
  dirname out = dirname video_path ∧
  ∀ env w f,
    cv_open env (files w) video_path = Opened →
    cv_read env (files w) video_path = FirstFrame f →
    cv_imwrite env (files w) out f = WriteTrue →
    fst (extract_first_frame env video_path w) = Ret (Some out) ∧
    files (snd (extract_first_frame env video_path w)) !! out
    = Some (PngImage f) ∧
    (∀ path, path ≠ out →
       files (snd (extract_first_frame env video_path w)) !! path
       = files w !! path) ∧
    new_events (extract_first_frame env video_path) w
    = [EvVideoCapture video_path; EvRead (fresh (dom (sessions w)));
       EvImwrite out; EvRelease (fresh (dom (sessions w)))].
Proof.
  cbv zeta. split; [done|]. split; [by rewrite splitext_app|]. split.
  { destruct (splitext_cases video_path) as [->|(root & e & _ & ? & ? & ->)];
      simpl; [by left|right]. by exists e. }
  split.
  { intros pre stem e -> Hpre Hstem Hdots He Hsep. unfold output_path_of.
    rewrite splitext_strips by done. simpl. by rewrite <- app_assoc. }
  split; [apply head_splitext, suffix_no_sep|].
  split; [apply dirname_output_path|].
  intros env w f Hopen Hread Hwrite.
  destruct (extract_write_true env video_path w f Hopen Hread Hwrite)
    as (Hret & Hfiles & Hevents).
  split; [done|]. rewrite Hfiles. split; [apply lookup_insert_eq|].
  split; [|done]. intros path Hne. by apply lookup_insert_ne.
Qed.

Lemma C7_witness :
  let w := initial_world Sample.old_image in
  let r := extract_first_frame Sample.env_ok (py "/videos/a.mp4") w in
  output_path_of (py "/videos/a.mp4") = py "/videos/a_first_frame.png" ∧
  files w !! py "/videos/a_first_frame.png" = Some (OtherData [7; 7]) ∧
  fst r = Ret (Some (py "/videos/a_first_frame.png")) ∧
  files (snd r) !! py "/videos/a_first_frame.png"
  = Some (PngImage [1; 2; 3]).
Proof.
  cbv zeta.
  destruct (C7_output_path_beside_source (py "/videos/a.mp4"))
    as (Hout & _ & _ & Hstrip & _ & _ & Hwrite).
  assert (output_path_of (py "/videos/a.mp4") = py "/videos/a_first_frame.png")
    as Hpath.
  { apply (Hstrip (py "/videos/") (py "a") (py "mp4")).
    - reflexivity.
    - right. by exists (py "/videos").
    - apply (bool_decide_unpack _). vm_compute. exact I.
    - reflexivity.
    - apply (bool_decide_unpack _). vm_compute. exact I.
    - apply (bool_decide_unpack _). vm_compute. exact I. }
  split; [exact Hpath|]. split; [vm_compute; reflexivity|].
  destruct (Hwrite Sample.env_ok (initial_world Sample.old_image) [1; 2; 3])
    as (Hret & Hnew & _); try (vm_compute; reflexivity).
  rewrite <- Hpath. split; [exact Hret|exact Hnew].
Defined.

(** C3: no call of the extractor leaves a decode session open.  Whenever
    the constructor hands back a capture object (whether or not the file
    opened, and whatever [read] and [imwrite] do afterwards, raising
    included) the function returns, and [release] of that object is the
    last thing it does.  When the constructor itself raises there is no
    capture object and no session: the call only logs the error. *)
Theorem C3_session_released (env : Env) (video_path : pystr) (w : World) :
  let r := extract_first_frame env video_path w in
  let h := fresh (dom (sessions w)) in
  sessions (snd r) = sessions w ∧
  (h ∉ dom (sessions (snd r))) ∧
  match cv_open env (files w) video_path with
  | OpenRaises _ msg =>
      new_events (extract_first_frame env video_path) w
      = [EvVideoCapture video_path;
         EvLog ERROR (ErrorProcessing video_path msg)]
  | OpenFails | Opened =>
      (∃ v, fst r = Ret v) ∧
      last (new_events (extract_first_frame env video_path) w)
      = Some (EvRelease h)
  end.
Proof.
  cbv zeta. rewrite extract_sessions. split; [done|].
  split; [apply is_fresh|].
  unfold new_events. rewrite extract_first_frame_eq.
  unfold extract_result, released.
  destruct (cv_open _ _ _);
    [| |destruct (cv_read _ _ _); [| |destruct (cv_imwrite _ _ _ _)]];
    simpl; rewrite <- ?app_assoc, drop_app_length; simpl; eauto.
Qed.

(** The answer [False] of [cv2.imwrite] is dropped. *)
Lemma extract_write_false env video_path w f :
  cv_open env (files w) video_path = Opened →
  cv_read env (files w) video_path = FirstFrame f →
  cv_imwrite env (files w) (output_path_of video_path) f = WriteFalse →
  fst (extract_first_frame env video_path w)
  = Ret (Some (output_path_of video_path)) ∧
  files (snd (extract_first_frame env video_path w)) = files w.
Proof.
  intros Hopen Hread Hwrite.
  rewrite extract_first_frame_eq. unfold extract_result.
  by rewrite Hopen, Hread, Hwrite.
Qed.

(** An exception of [cv2.imwrite] is caught. *)
Lemma extract_write_raises env video_path w f cls msg :
  cv_open env (files w) video_path = Opened →
  cv_read env (files w) video_path = FirstFrame f →
  cv_imwrite env (files w) (output_path_of video_path) f
  = WriteRaises cls msg →
  fst (extract_first_frame env video_path w) = Ret None ∧
  files (snd (extract_first_frame env video_path w)) = files w.
Proof.
  intros Hopen Hread Hwrite.
  rewrite extract_first_frame_eq. unfold extract_result.
  by rewrite Hopen, Hread, Hwrite.
Qed.

(** C1, at the failing input: [a.mp4] opens and yields a frame, and
    [cv2.imwrite] answers [False].  The extractor returns the output path
    although no image exists there, and the run counts the file among the
    successful ones (one of three; the other two do not open). *)
Theorem C1_unwritten_image_reported_as_success :
  let w := initial_world ∅ in
  let r := extract_first_frame Sample.env_write_false (py "/videos/a.mp4") w in
  cv_imwrite Sample.env_write_false (files w)
    (py "/videos/a_first_frame.png") [1; 2; 3] = WriteFalse ∧
  fst r = Ret (Some (py "/videos/a_first_frame.png")) ∧
  files (snd r) !! py "/videos/a_first_frame.png" = None ∧
  summaries (trace (snd (main Sample.env_write_false w))) = [(3, 1, 2)%nat].
Proof.
  cbv zeta. split; [reflexivity|].
  destruct (extract_write_false Sample.env_write_false (py "/videos/a.mp4")
              (initial_world ∅) [1; 2; 3]) as [Hret Hfiles];
    try reflexivity.
  split; [exact Hret|]. rewrite Hfiles. split; [reflexivity|].
  vm_compute. reflexivity.
Qed.

(** When the constructor raises, the handler logs the error, and the
    [finally] block then fails on the unbound [video_capture]. *)
Lemma extract_open_raises env video_path w cls msg :
  cv_open env (files w) video_path = OpenRaises cls msg →
  extract_first_frame env video_path w
  = (Raise unbound_error,
     emit (EvLog ERROR (ErrorProcessing video_path msg))
       (emit (EvVideoCapture video_path) w)).
Proof.
  intros Hopen. rewrite extract_first_frame_eq. unfold extract_result.
  by rewrite Hopen.
Qed.

(** In every other case the extractor returns. *)
Lemma extract_returns env video_path w :
  (∀ cls msg, cv_open env (files w) video_path ≠ OpenRaises cls msg) →
  ∃ r, fst (extract_first_frame env video_path w) = Ret r ∧
       (r = None ∨ r = Some (output_path_of video_path)).
Proof.
  intros Hopen. pose proof (extract_outcome env video_path w) as Ho.
  destruct (fst (extract_first_frame env video_path w)) as [r|e].
  - exists r. tauto.
  - destruct Ho as [_ (cls & msg & Hraises)]. by apply Hopen in Hraises.
Qed.

(** C4, at the failing input: the constructor raises for [B.AVI].  The
    error is caught and logged, but the call does not return a failure
    result: an [UnboundLocalError] leaves [extract_first_frame]. *)
Theorem C4_constructor_error_escapes :
  let w := initial_world ∅ in
  let r := extract_first_frame Sample.env_open_raises (py "/videos/B.AVI") w in
  fst r = Raise (PyError UnboundLocalError (py "video_capture")) ∧
  trace (snd r)
  = [EvVideoCapture (py "/videos/B.AVI");
     EvLog ERROR (ErrorProcessing (py "/videos/B.AVI")
                    (py "can't convert filename"))].
Proof.
  cbv zeta.
  rewrite (extract_open_raises Sample.env_open_raises (py "/videos/B.AVI")
             (initial_world ∅) CvError (py "can't convert filename"));
    [|reflexivity].
  split; reflexivity.
Qed.

(** ** The orchestrator (C2, C8, C5, C9) *)

Lemma startup_events_quiet env evs :
  Forall (startup_event env) evs →
  capture_calls evs = [] ∧ summaries evs = [].
Proof.
  induction 1 as [|e evs He _ [IH1 IH2]]; [done|].
  by destruct e as [[] []| | | | | | | | | |].
Qed.

Lemma directory_events_summaries env directory evs total successful failed :
  Forall (directory_event env directory) evs →
  (total, successful, failed) ∈ summaries evs →
  (successful + failed = total)%nat ∧
  total = length (candidates env directory).
Proof.
  induction 1 as [|e evs He _ IH]; simpl.
  - by intros ?%elem_of_nil.
  - destruct e as [level []| | | | | | | | | |]; simpl; try done.
    intros [Heq|Hin]%elem_of_cons; [|by apply IH].
    by injection Heq as -> -> ->.
Qed.

(** When no constructor raises, a run on a valid directory with
    candidates returns and logs exactly one summary. *)
Lemma main_completes env w directory :
  no_open_error env →
  fst (startup env w) = Ret directory →
  valid_directory env directory = true → candidates env directory ≠ [] →
  fst (main env w) = Ret tt ∧
  capture_calls (new_events (main env) w) = candidates env directory ∧
  ∃ successful failed,
    summaries (new_events (main env) w)
    = [(length (candidates env directory), successful, failed)].
Proof.
  intros Hno Hstart Hvalid Hcands.
  destruct (triple_startup env w) as (evs1 & Ht1 & Hall1 & _).
  apply startup_events_quiet in Hall1 as [Hc1 Hs1].
  unfold new_events. rewrite main_startup. unfold bind.
  destruct (startup env w) as [[d|e] w1]; simpl in *; [|done].
  injection Hstart as ->.
  destruct (run_directory_completes env directory w1 Hno Hvalid Hcands)
    as (Hret & Hcalls & s & f & Hsum).
  destruct (triple_run_directory env directory w1) as (evs2 & Ht2 & _).
  rewrite (new_events_eq _ _ _ Ht2) in Hcalls, Hsum.
  rewrite Ht2, Ht1, <- app_assoc, drop_app_length.
  rewrite capture_calls_app, summaries_app, Hc1, Hs1. simpl.
  split; [done|]. split; [done|]. by exists s, f.
Qed.

(** The counters where they do add up.  Every summary a run logs carries
    [successful + failed = total], with [total] the number of candidates
    discovery found; the loop keeps [successful + failed] equal to the
    number of files it has gone through, for every list; and when no
    constructor raises, a run on a valid directory with candidates does
    end with such a summary. *)
Lemma summary_counts_add_up (env : Env) (w : World) :
  (∀ total successful failed,
     (total, successful, failed) ∈ summaries (new_events (main env) w) →
     (successful + failed = total)%nat ∧
     ∃ directory, requested_directory env = Some directory ∧
                  total = length (candidates env directory)) ∧
  (∀ video_files finished successful failed counts w',
     process_videos env video_files finished successful failed w
     = (Ret counts, w') →
     (fst counts + snd counts
      = successful + failed + length video_files)%nat) ∧
  process_videos env [] 0 0 0 w = (Ret (0, 0)%nat, w) ∧
  (no_open_error env →
   ∀ directory,
     fst (startup env w) = Ret directory →
     valid_directory env directory = true →
     candidates env directory ≠ [] →
     fst (main env w) = Ret tt ∧
     ∃ successful failed,
       summaries (new_events (main env) w)
       = [(length (candidates env directory), successful, failed)]).
Proof.
  split; [|split; [|split; [done|]]].
  - intros total successful failed Hin.
    destruct (main_phases env w)
      as (evs1 & evs2 & Hev & Hall1 & _
          & [(e & _ & _ & ->)|(d & Hd & Hall2 & _)]);
      rewrite Hev in Hin.
    + rewrite app_nil_r in Hin.
      apply startup_events_quiet in Hall1 as [_ Hs]. rewrite Hs in Hin.
      by apply elem_of_nil in Hin.
    + rewrite summaries_app in Hin.
      apply startup_events_quiet in Hall1 as [_ Hs]. rewrite Hs in Hin.
      destruct (directory_events_summaries _ _ _ _ _ _ Hall2 Hin) as [? ?].
      split; [done|]. by exists d.
  - intros video_files finished successful failed counts w' Hrun.
    destruct (triple_process_videos env video_files finished successful
                failed w) as (_ & _ & _ & _ & Hpost).
    by rewrite Hrun in Hpost.
  - intros Hno directory Hstart Hvalid Hcands.
    destruct (main_completes env w directory Hno Hstart Hvalid Hcands)
      as (Hret & _ & Hsum). done.
Qed.

Lemma sample_no_open_error : no_open_error Sample.env_ok.
Proof.
  intros fs path cls msg. simpl.
  repeat case_bool_decide; discriminate.
Qed.

Example summary_counts_sample :
  (3, 1, 2)%nat ∈ summaries (new_events (main Sample.env_ok) (initial_world ∅))
  ∧ (1 + 2 = 3)%nat
  ∧ fst (main Sample.env_ok (initial_world ∅)) = Ret tt.
Proof.
  destruct (summary_counts_add_up Sample.env_ok (initial_world ∅))
    as (Hsum & _ & _ & Hcomplete).
  assert ((3, 1, 2)%nat
          ∈ summaries (new_events (main Sample.env_ok) (initial_world ∅)))
    as Hin by (vm_compute; left).
  split; [exact Hin|]. split; [apply (Hsum _ _ _ Hin)|].
  apply (Hcomplete sample_no_open_error Sample.videos).
  - vm_compute. reflexivity.
  - reflexivity.
  - vm_compute. discriminate.
Qed.

(** C2, at the failing input: discovery finds three candidates, the run
    logs that and enters the loop, and the constructor raises for the
    second candidate.  The loop has then counted one successful and no
    failed extraction: it is in its second round with the counters at 1
    and 0, and that round raises from any world.  The run ends there with
    the uncaught [UnboundLocalError]; the counters never reach the total
    of three and no summary is logged. *)
Theorem C2_counts_fall_short_when_pass_aborts :
  let env := Sample.env_open_raises in
  let first := py "/videos/a.mp4" in
  let later := [py "/videos/B.AVI"; py "/videos/clips.mov"] in
  let r := main env (initial_world ∅) in
  candidates env Sample.videos = first :: later ∧
  EvLog INFO (FoundVideoFiles 3) ∈ trace (snd r) ∧
  (∀ w, process_videos env (first :: later) 0 0 0 w
        = process_videos env later 1 1 0
            (emit (EvProgress 1) (snd (extract_first_frame env first w)))) ∧
  (∀ w, fst (process_videos env later 1 1 0 w)
        = Raise (PyError UnboundLocalError (py "video_capture"))) ∧
  (1 + 0 ≠ length (candidates env Sample.videos))%nat ∧
  summaries (trace (snd r)) = [] ∧
  fst r = Raise (PyError UnboundLocalError (py "video_capture")).
Proof.
  cbv zeta. split; [vm_compute; reflexivity|].
  split; [vm_compute; do 9 right; left|].
  split; [|split; [|split; [vm_compute; discriminate|]]].
  - intros w. rewrite process_videos_cons.
    destruct (extract_write_true Sample.env_open_raises (py "/videos/a.mp4")
                w [1; 2; 3]) as (Hret & _); try reflexivity.
    destruct (extract_first_frame Sample.env_open_raises
                (py "/videos/a.mp4") w) as [r1 w1].
    simpl in Hret. subst r1. reflexivity.
  - intros w. rewrite process_videos_cons.
    rewrite (extract_open_raises Sample.env_open_raises (py "/videos/B.AVI")
               w CvError (py "can't convert filename")); reflexivity.
  - split; vm_compute; reflexivity.
Qed.

(** C8, at the failing input: discovery finds three candidates and the
    constructor raises for the second.  The extractor is called on the
    first two only, no summary is logged, and the run ends with the
    uncaught [UnboundLocalError] (exit status 1). *)
Theorem C8_pass_stops_at_escaped_error :
  let r := main Sample.env_open_raises (initial_world ∅) in
  candidates Sample.env_open_raises Sample.videos
  = [py "/videos/a.mp4"; py "/videos/B.AVI"; py "/videos/clips.mov"] ∧
  capture_calls (trace (snd r)) = [py "/videos/a.mp4"; py "/videos/B.AVI"] ∧
  summaries (trace (snd r)) = [] ∧
  fst r = Raise (PyError UnboundLocalError (py "video_capture")) ∧
  exit_status (fst r) = 1.
Proof. vm_compute. repeat split; reflexivity. Qed.

(** C5, as worded, fails: on a machine where pip ends with return code 1
    the uncaught [CalledProcessError] of the dependency check makes the
    process exit with status 1, although the requested directory is valid
    (validation is never reached). *)
Lemma C5_counterexample :
  ¬ exit_nonzero_iff_invalid Sample.env_pip_fails (initial_world ∅).
Proof.
  intros [Hinvalid _].
  assert (exit_status (fst (main Sample.env_pip_fails (initial_world ∅))) ≠ 0)
    as Hstatus by (vm_compute; discriminate).
  destruct (Hinvalid Hstatus) as (directory & Hdir & Hvalid).
  vm_compute in Hdir. injection Hdir as <-.
  vm_compute in Hvalid. discriminate.
Qed.

(** C5, amended: in a run that no uncaught exception cuts short, the
    exit status is non-zero exactly when validation of the requested
    directory fails (the run then ends in [sys.exit(1)]); the run ends in
    [sys.exit(0)] when discovery finds no candidate, and returns from
    [main] (status 0) when there are candidates, whatever the counts of
    the pass. *)
Theorem C5_exit_status_without_uncaught_error (env : Env) (w : World) :
  (∀ cls msg, fst (main env w) ≠ Raise (PyError cls msg)) →
  ∃ directory,
    requested_directory env = Some directory ∧
    (exit_status (fst (main env w)) ≠ 0
     ↔ valid_directory env directory = false) ∧
    (valid_directory env directory = false →
     fst (main env w) = Raise (SystemExit 1)) ∧
    (valid_directory env directory = true →
     candidates env directory = [] →
     fst (main env w) = Raise (SystemExit 0)) ∧
    (valid_directory env directory = true →
     candidates env directory ≠ [] →
     fst (main env w) = Ret tt ∧ exit_status (fst (main env w)) = 0).
Proof.
  intros Hcaught.
  destruct (main_phases env w)
    as (evs1 & evs2 & _ & _ & _
        & [(e & He & (cls & msg & ->) & _)|(d & Hd & _ & Hpost)]).
  { by apply Hcaught in He. }
  exists d. split; [done|].
  destruct (fst (main env w)) as [[]|e]; simpl.
  - destruct Hpost as [Hvalid Hcands]. rewrite Hvalid.
    repeat split; try done; intros _ Hnil; by rewrite Hnil in Hcands.
  - destruct Hpost
      as [[-> Hvalid]|[(-> & Hvalid & Hcands)|(-> & _)]].
    + rewrite Hvalid. repeat split; done.
    + rewrite Hvalid. repeat split; try done;
        intros _ Hne; by rewrite Hcands in Hne.
    + exfalso. by eapply Hcaught.
Qed.

Lemma C5_witness :
  (∀ cls msg,
     fst (main Sample.env_ok (initial_world ∅)) ≠ Raise (PyError cls msg)) ∧
  exit_status (fst (main Sample.env_ok (initial_world ∅))) = 0.
Proof.
  assert (∀ cls msg,
            fst (main Sample.env_ok (initial_world ∅))
            ≠ Raise (PyError cls msg)) as Hcaught.
  { intros cls msg. vm_compute. discriminate. }
  split; [exact Hcaught|].
  destruct (C5_exit_status_without_uncaught_error Sample.env_ok
              (initial_world ∅) Hcaught)
    as (directory & Hdir & _ & _ & _ & Hpass).
  vm_compute in Hdir. injection Hdir as <-.
  apply Hpass.
  - reflexivity.
  - vm_compute. discriminate.
Defined.

(** C9, as worded, fails: no module is called [opencv_python], so the
    dependency check of every run starts [pip install opencv-python], a
    process that is neither a read of a video nor a write of an image. *)
Lemma C9_counterexample :
  ¬ touches_only_directory Sample.env_ok (initial_world ∅).
Proof.
  intros [directory Hall]. rewrite Forall_forall in Hall.
  apply (Hall (EvSubprocess
                 (pip_command Sample.env_ok (py "opencv-python")))).
  vm_compute. do 2 right. left.
Qed.

(** C9, amended: the events of a run are those of the start-up (imports,
    the prompt for the directory, and [pip install] of a required package
    whose import failed) followed by those of the work on the directory:
    looking at the directory itself, opening candidates discovery found
    in it, and writing the image of a candidate.  A file differs after
    the run only if it is the output path of a candidate, which lies in
    the directory of that candidate. *)
Theorem C9_effects_of_a_run (env : Env) (w : World) :
  ∃ evs1 evs2,
    new_events (main env) w = evs1 ++ evs2 ∧
    Forall (startup_event env) evs1 ∧
    (evs2 = [] ∨
     ∃ directory, requested_directory env = Some directory ∧
                  Forall (directory_event env directory) evs2) ∧
    ∀ path,
      files (snd (main env w)) !! path ≠ files w !! path →
      ∃ directory video,
        requested_directory env = Some directory ∧
        video ∈ candidates env directory ∧
        path = output_path_of video ∧
        dirname path = dirname video.
Proof.
  destruct (main_phases env w)
    as (evs1 & evs2 & Hev & Hall1 & Hfiles
        & [(e & _ & _ & ->)|(d & Hd & Hall2 & _)]);
    exists evs1; eexists; (split; [exact Hev|]); (split; [done|]).
  - split; [by left|]. intros path Hne.
    destruct (Hfiles path) as [?|Hin]; [done|]. by apply elem_of_nil in Hin.
  - split; [right; by exists d|]. intros path Hne.
    destruct (Hfiles path) as [?|Hin]; [done|].
    rewrite Forall_forall in Hall2. apply Hall2 in Hin as (video & ? & ->).
    exists d, video. repeat split; try done. apply dirname_output_path.
Qed.

Lemma C9_witness :
  let w := initial_world ∅ in
  let path := py "/videos/a_first_frame.png" in
  files (snd (main Sample.env_ok w)) !! path ≠ files w !! path ∧
  ∃ video, video ∈ candidates Sample.env_ok Sample.videos ∧
           path = output_path_of video.
Proof.
  cbv zeta.
  assert (files (snd (main Sample.env_ok (initial_world ∅)))
            !! py "/videos/a_first_frame.png"
          ≠ files (initial_world ∅) !! py "/videos/a_first_frame.png")
    as Hne by (vm_compute; discriminate).
  split; [exact Hne|].
  destruct (C9_effects_of_a_run Sample.env_ok (initial_world ∅))
    as (evs1 & evs2 & _ & _ & _ & Hfiles).
  destruct (Hfiles _ Hne) as (directory & video & Hdir & Hin & Hpath & _).
  vm_compute in Hdir. injection Hdir as <-. by exists video.
Defined.

(** * Further properties of the script *)

(** ** The extractor *)

Lemma error_records_app t1 t2 :
  error_records (t1 ++ t2) = error_records t1 ++ error_records t2.
Proof. apply omap_app. Qed.

Lemma output_path_nonempty video_path : output_path_of video_path ≠ [].
Proof.
  unfold output_path_of. intros H. apply app_eq_nil in H as [_ H].
  discriminate.
Qed.

(** The cases of [extract_result], with the new events spelled out. *)
Ltac extract_cases env video_path w :=
  unfold new_events; rewrite ?extract_first_frame_eq;
  unfold extract_result, released;
  destruct (cv_open env (files w) video_path) as [?cls ?msg| |] eqn:?Hopen;
    [| |destruct (cv_read env (files w) video_path)
           as [?cls ?msg| |?f] eqn:?Hread;
        [| |destruct (cv_imwrite env (files w) (output_path_of video_path) _)
              as [?cls ?msg| |] eqn:?Hwrite]];
  simpl; rewrite <- ?app_assoc, ?drop_app_length; simpl.

(** One path through the extractor, chosen by the answers of OpenCV. *)
Ltac extract_unfold :=
  unfold new_events; rewrite ?extract_first_frame_eq;
  unfold extract_result, released.

Ltac extract_done :=
  simpl; rewrite <- ?app_assoc, ?drop_app_length; simpl.

(** X1: a call logs at most one error record, and the record names the
    file; it logs none exactly when it returns the output path.  So every
    call that does not end with a path leaves one error in the log. *)
Theorem X1_one_error_per_failure (env : Env) (video_path : pystr) (w : World) :
  let errors :=
    error_records (new_events (extract_first_frame env video_path) w) in
  (length errors ≤ 1)%nat ∧
  (∀ m, m ∈ errors →
     m = CouldNotOpen video_path ∨ m = CouldNotReadFrame video_path ∨
     ∃ reason, m = ErrorProcessing video_path reason) ∧
  (errors = [] ↔
   fst (extract_first_frame env video_path w)
   = Ret (Some (output_path_of video_path))).
Proof.
  cbv zeta. extract_cases env video_path w;
    (split; [lia|]);
    (split; [intros m Hm; apply list_elem_of_singleton in Hm
                 || apply elem_of_nil in Hm; subst; eauto; done|]);
    split; done.
Qed.

(** X2: the early failure returns.  A video that does not open is never
    read and nothing is written for it: the call logs the failure,
    releases the capture object and returns no path.  A video that opens
    but yields no frame is released the same way, with no call of
    [cv2.imwrite]. *)
Theorem X2_early_failures_write_nothing
    (env : Env) (video_path : pystr) (w : World) :
  let h := fresh (dom (sessions w)) in
  (cv_open env (files w) video_path = OpenFails →
   fst (extract_first_frame env video_path w) = Ret None ∧
   files (snd (extract_first_frame env video_path w)) = files w ∧
   new_events (extract_first_frame env video_path) w
   = [EvVideoCapture video_path; EvLog ERROR (CouldNotOpen video_path);
      EvRelease h]) ∧
  (cv_open env (files w) video_path = Opened →
   cv_read env (files w) video_path = NoFrame →
   fst (extract_first_frame env video_path w) = Ret None ∧
   files (snd (extract_first_frame env video_path w)) = files w ∧
   new_events (extract_first_frame env video_path) w
   = [EvVideoCapture video_path; EvRead h;
      EvLog ERROR (CouldNotReadFrame video_path); EvRelease h]).
Proof.
  cbv zeta. split.
  - intros Hfails. extract_unfold. rewrite Hfails. by extract_done.
  - intros Hopened Hnone. extract_unfold. rewrite Hopened, Hnone.
    by extract_done.
Qed.

Lemma X2_witness :
  let w := initial_world ∅ in
  let video := py "/twins/show.mp4" in
  fst (extract_first_frame Sample.env_ok (py "/videos/B.AVI") w) = Ret None ∧
  fst (extract_first_frame Sample2.env_no_frame video w) = Ret None ∧
  new_events (extract_first_frame Sample2.env_no_frame video) w
  = [EvVideoCapture video; EvRead 0;
     EvLog ERROR (CouldNotReadFrame video); EvRelease 0].
Proof.
  cbv zeta.
  destruct (X2_early_failures_write_nothing Sample.env_ok
              (py "/videos/B.AVI") (initial_world ∅)) as [Hfails _].
  destruct (X2_early_failures_write_nothing Sample2.env_no_frame
              (py "/twins/show.mp4") (initial_world ∅)) as [_ Hnone].
  destruct (Hfails eq_refl) as (Hret & _).
  destruct (Hnone eq_refl eq_refl) as (Hret' & _ & Hev).
  split; [exact Hret|]. split; [exact Hret'|exact Hev].
Defined.

(** X3: an exception of [read] or of [cv2.imwrite] stays inside the call.
    It is logged with its message, the session is released last, no path
    is returned and no file changes. *)
Theorem X3_read_and_write_errors_contained
    (env : Env) (video_path : pystr) (w : World) (cls : exn_class)
    (msg : pystr) :
  cv_open env (files w) video_path = Opened →
  cv_read env (files w) video_path = ReadRaises cls msg ∨
  (∃ f, cv_read env (files w) video_path = FirstFrame f ∧
        cv_imwrite env (files w) (output_path_of video_path) f
        = WriteRaises cls msg) →
  fst (extract_first_frame env video_path w) = Ret None ∧
  error_records (new_events (extract_first_frame env video_path) w)
  = [ErrorProcessing video_path msg] ∧
  last (new_events (extract_first_frame env video_path) w)
  = Some (EvRelease (fresh (dom (sessions w)))) ∧
  files (snd (extract_first_frame env video_path w)) = files w ∧
  sessions (snd (extract_first_frame env video_path w)) = sessions w.
Proof.
  intros Hopened Hraises. rewrite extract_sessions.
  destruct Hraises as [Hr|(f & Hr & Hw)]; extract_unfold.
  - rewrite Hopened, Hr. by extract_done.
  - rewrite Hopened, Hr, Hw. by extract_done.
Qed.

Lemma X3_witness :
  let w := initial_world ∅ in
  let video := py "/twins/show.mp4" in
  fst (extract_first_frame Sample2.env_read_raises video w) = Ret None ∧
  error_records (new_events (extract_first_frame Sample2.env_read_raises video) w)
  = [ErrorProcessing video (py "decoder gave up")].
Proof.
  cbv zeta.
  destruct (X3_read_and_write_errors_contained Sample2.env_read_raises
              (py "/twins/show.mp4") (initial_world ∅) CvError
              (py "decoder gave up") eq_refl (or_introl eq_refl))
    as (Hret & Herr & _).
  split; [exact Hret|exact Herr].
Defined.

(** X4: a path the extractor returns is never the empty string, so the
    truth test [if extract_first_frame(video_file):] of [main] is true
    exactly for a returned path and false exactly for [None]. *)
Theorem X4_truth_test_is_exact
    (env : Env) (video_path : pystr) (w : World) (r : option pystr) :
  fst (extract_first_frame env video_path w) = Ret r →
  (truthy_opt r = true ↔ r = Some (output_path_of video_path)) ∧
  (truthy_opt r = false ↔ r = None).
Proof.
  intros Hret. pose proof (extract_outcome env video_path w) as Ho.
  rewrite Hret in Ho. destruct Ho as [_ [->| ->]]; simpl.
  - split; split; done.
  - pose proof (output_path_nonempty video_path) as Hne.
    destruct (output_path_of video_path); [done|]. simpl.
    split; split; done.
Qed.

Lemma X4_witness :
  truthy_opt (Some (output_path_of (py "/videos/a.mp4"))) = true.
Proof.
  assert (fst (extract_first_frame Sample.env_ok (py "/videos/a.mp4")
                 (initial_world ∅))
          = Ret (Some (output_path_of (py "/videos/a.mp4")))) as Hret.
  { vm_compute. reflexivity. }
  apply (X4_truth_test_is_exact _ _ _ _ Hret). reflexivity.
Defined.

(** ** Output names *)

Lemma lower_app s1 s2 : lower (s1 ++ s2) = lower s1 ++ lower s2.
Proof. apply map_app. Qed.

Lemma lower_char_idemp c : lower_char (lower_char c) = lower_char c.
Proof. destruct c as [[] [] [] [] [] [] [] []]; reflexivity. Qed.

Lemma lower_idemp s : lower (lower s) = lower s.
Proof.
  induction s as [|c s IH]; [done|]. simpl. by rewrite lower_char_idemp, IH.
Qed.

(** No string that ends in [_first_frame.png] passes the suffix test. *)
Lemma output_suffix_not_video x :
  endswith_any (lower (x ++ output_suffix)) video_extensions = false.
Proof.
  rewrite lower_app. change (lower output_suffix) with output_suffix.
  unfold endswith_any. apply not_true_is_false. intros H.
  apply existsb_exists in H as (ext & Hin & Hends).
  apply endswith_spec in Hends as [l Hl].
  apply (f_equal (@rev ascii)) in Hl. rewrite !rev_app_distr in Hl.
  simpl in Hin.
  repeat (destruct Hin as [<-|Hin]; [simpl in Hl; discriminate|]). done.
Qed.

(** The last component when it is made of dots up to its last dot. *)
Lemma splitext_dotfile_name pre stem e :
  (pre = [] ∨ ∃ a, pre = a ++ [sep]) →
  all_dots stem = true → (extsep ∉ e) → (sep ∉ e) →
  splitext (pre ++ stem ++ extsep :: e) = (pre ++ stem ++ extsep :: e, []).
Proof.
  intros Hpre Hdots He Hsep.
  assert (sep ∉ stem) as Hstem.
  { intros Hin. unfold all_dots in Hdots. rewrite forallb_forall in Hdots.
    apply list_elem_of_In, Hdots in Hin. by apply bool_decide_eq_true in Hin. }
  assert (sep ∉ stem ++ extsep :: e) as Hname.
  { intros [?|Hin]%elem_of_app; [done|].
    apply elem_of_cons in Hin as [?|?]; done. }
  rewrite (splitext_prefix pre _ Hpre Hname).
  assert (splitext (stem ++ extsep :: e) = (stem ++ extsep :: e, []))
    as ->; [|done].
  rewrite splitext_eq. unfold has_extension.
  rewrite (rfind_absent _ sep Hname), rfind_app. simpl.
  rewrite (rfind_absent e extsep He). simpl.
  rewrite Z.add_0_r. unfold len.
  destruct (Z.gtb_spec (Z.of_nat (length stem)) (-1)); [|lia]. simpl.
  replace (Z.to_nat (Z.of_nat (length stem) - (-1 + 1))) with (length stem)
    by lia.
  change (Z.to_nat (-1 + 1)) with 0%nat.
  by rewrite drop_0, take_app_length, Hdots.
Qed.

(** X5: two videos that differ only in their extension share one output
    path: the image of [stem.e1] and the image of [stem.e2] are the same
    file. *)
Theorem X5_same_stem_same_output (pre stem e1 e2 : pystr) :
  (pre = [] ∨ ∃ a, pre = a ++ [sep]) →
  (sep ∉ stem) → all_dots stem = false →
  (extsep ∉ e1) → (sep ∉ e1) → (extsep ∉ e2) → (sep ∉ e2) →
  output_path_of (pre ++ stem ++ extsep :: e1)
  = output_path_of (pre ++ stem ++ extsep :: e2) ∧
  output_path_of (pre ++ stem ++ extsep :: e1)
  = pre ++ stem ++ output_suffix.
Proof.
  intros Hpre Hstem Hdots He1 Hs1 He2 Hs2. unfold output_path_of.
  rewrite !splitext_strips by done. simpl. by rewrite <- app_assoc.
Qed.

Lemma X5_witness :
  output_path_of (py "/twins/show.mp4") = output_path_of (py "/twins/show.avi")
  ∧ output_path_of (py "/twins/show.mp4") = py "/twins/show_first_frame.png".
Proof.
  apply (X5_same_stem_same_output (py "/twins/") (py "show") (py "mp4")
           (py "avi"));
    first [ right; by exists (py "/twins")
          | reflexivity
          | apply (bool_decide_unpack _); vm_compute; exact I ].
Defined.

(** X6: an output path never passes the suffix test of discovery, and
    neither does its last component; a later run over the same directory
    does not take the images for videos. *)
Theorem X6_outputs_are_not_candidates (video_path name : pystr) :
  endswith_any (lower (output_path_of video_path)) video_extensions = false ∧
  endswith_any (lower (fst (splitext name) ++ output_suffix))
    video_extensions = false.
Proof.
  split; [unfold output_path_of|]; apply output_suffix_not_video.
Qed.

(** X7: a name that is dots up to its last dot (a dot-file such as
    [.mp4]) has no extension for [os.path.splitext]: the output path
    keeps the whole name and only appends [_first_frame.png]. *)
Theorem X7_dot_file_keeps_its_name (pre stem e : pystr) :
  (pre = [] ∨ ∃ a, pre = a ++ [sep]) →
  all_dots stem = true → (extsep ∉ e) → (sep ∉ e) →
  output_path_of (pre ++ stem ++ extsep :: e)
  = pre ++ stem ++ extsep :: e ++ output_suffix.
Proof.
  intros Hpre Hdots He Hsep. unfold output_path_of.
  rewrite splitext_dotfile_name by done. simpl.
  by rewrite <- !app_assoc.
Qed.

Lemma X7_witness :
  endswith_any (lower (py ".mp4")) video_extensions = true ∧
  output_path_of (py "/twins/.mp4") = py "/twins/.mp4_first_frame.png".
Proof.
  split; [reflexivity|].
  apply (X7_dot_file_keeps_its_name (py "/twins/") [] (py "mp4"));
    first [ right; by exists (py "/twins")
          | reflexivity
          | apply (bool_decide_unpack _); vm_compute; exact I ].
Defined.

(** X8: discovery and the extractor together.  For a listed name without
    separator, the output path of [join directory name] is [join
    directory] of a name again: the name without its extension followed
    by [_first_frame.png], which is not empty and holds no separator.
    The image is a direct entry of the directory that was listed. *)
Theorem X8_output_is_entry_of_directory (directory name : pystr) :
  (sep ∉ name) →
  let image := fst (splitext name) ++ output_suffix in
  output_path_of (join directory name) = join directory image ∧
  valid_name image = true.
Proof.
  intros Hname. cbv zeta.
  assert (sep ∉ fst (splitext name) ++ output_suffix) as Himage.
  { intros [Hin|Hin]%elem_of_app; [|by apply suffix_no_sep in Hin].
    apply Hname. rewrite <- (splitext_app name). apply elem_of_app. by left. }
  split.
  - rewrite !join_name by done. unfold output_path_of.
    rewrite (splitext_prefix _ _ (join_prefix_shape directory) Hname).
    simpl. by rewrite <- app_assoc.
  - apply valid_name_spec. split; [|done].
    intros H. apply app_eq_nil in H as [_ H]. discriminate.
Qed.

Lemma X8_witness :
  output_path_of (join (py "/twins") (py "show.mp4"))
  = join (py "/twins") (py "show_first_frame.png").
Proof.
  assert (sep ∉ py "show.mp4") as Hname.
  { apply (bool_decide_unpack _). vm_compute. exact I. }
  destruct (X8_output_is_entry_of_directory (py "/twins") (py "show.mp4") Hname)
    as [Hout _].
  exact Hout.
Defined.

(** ** The loop of [main], once more *)

Section PassFacts.
Context (env : Env).

Lemma truthy_output video_path :
  truthy_opt (Some (output_path_of video_path)) = true.
Proof.
  pose proof (output_path_nonempty video_path) as Hne. simpl.
  by destruct (output_path_of video_path).
Qed.

Lemma extract_error_count video_path w :
  length (error_records (new_events (extract_first_frame env video_path) w))
  = match fst (extract_first_frame env video_path w) with
    | Ret r => if truthy_opt r then 0%nat else 1%nat
    | Raise _ => 1%nat
    end.
Proof.
  pose proof (output_path_nonempty video_path) as Hne.
  extract_cases env video_path w; try done;
    by destruct (output_path_of video_path).
Qed.

Lemma process_videos_sessions video_files finished successful failed w :
  sessions (snd (process_videos env video_files finished successful failed w))
  = sessions w.
Proof.
  revert finished successful failed w.
  induction video_files as [|video_file rest IH];
    intros finished successful failed w; [done|].
  rewrite process_videos_cons.
  pose proof (extract_sessions env video_file w) as Hs.
  destruct (extract_first_frame env video_file w) as [[r|e] w1];
    simpl in *; [|done].
  destruct (truthy_opt r); by rewrite IH.
Qed.

Lemma process_videos_trace video_files finished successful failed w :
  ∃ k evs,
    trace (snd (process_videos env video_files finished successful failed w))
    = trace w ++ evs ∧
    (k ≤ length video_files)%nat ∧
    capture_calls evs = take k video_files ∧
    match fst (process_videos env video_files finished successful failed w)
    with
    | Ret counts =>
        k = length video_files ∧
        snd counts = (failed + length (error_records evs))%nat ∧
        (fst counts + snd counts
         = successful + failed + length video_files)%nat
    | Raise e => (1 ≤ k)%nat ∧ e = unbound_error
    end.
Proof.
  revert finished successful failed w.
  induction video_files as [|video_file rest IH];
    intros finished successful failed w.
  - exists 0%nat, []. simpl. rewrite app_nil_r. repeat split; lia.
  - rewrite process_videos_cons.
    pose proof (extract_error_count video_file w) as Herr.
    pose proof (extract_outcome env video_file w) as Ho.
    destruct (extract_trace env video_file w) as (evs1 & Ht & Hc & _).
    rewrite (new_events_eq _ _ _ Ht) in Herr.
    destruct (extract_first_frame env video_file w) as [[r|e] w1];
      simpl in *.
    2: { exists 1%nat, (EvVideoCapture video_file :: evs1).
         simpl. rewrite Hc, take_0. repeat split; try done; try lia.
         tauto. }
    set (w2 := emit (EvProgress (S finished)) w1).
    assert (trace w2 = trace w ++ (EvVideoCapture video_file :: evs1)
                         ++ [EvProgress (S finished)]) as Ht2.
    { simpl. by rewrite Ht, <- app_assoc. }
    destruct (truthy_opt r);
      [destruct (IH (S finished) (successful + 1)%nat failed w2)
         as (k & evs & Htr & Hk & Hcalls & Hpost)
      |destruct (IH (S finished) successful (failed + 1)%nat w2)
         as (k & evs & Htr & Hk & Hcalls & Hpost)];
      exists (S k),
        ((EvVideoCapture video_file :: evs1) ++ [EvProgress (S finished)]
         ++ evs);
      rewrite Htr, Ht2, <- !app_assoc;
      (split; [done|]); (split; [lia|]);
      (split; [simpl; rewrite !capture_calls_app, Hc; simpl;
               by rewrite Hcalls|]);
      destruct (fst (process_videos env rest _ _ _ w2)) as [counts|e];
      try (destruct Hpost as [? ?]; split; [lia|done]);
      destruct Hpost as (-> & Hf & Hsum);
      (split; [done|]); simpl;
      rewrite !error_records_app; simpl; rewrite length_app;
      simpl in Herr; lia.
Qed.

End PassFacts.

(** X9: however the loop ends (also when an error leaves the extractor)
    the open decode sessions are afterwards what they were before it: the
    batch leaks no session, whatever its length. *)
Theorem X9_pass_leaves_no_session
    (env : Env) (video_files : list pystr) (finished successful failed : nat)
    (w : World) :
  sessions (snd (process_videos env video_files finished successful failed w))
  = sessions w.
Proof. apply process_videos_sessions. Qed.

(** X10: when the loop completes, the number of failed extractions it
    has added to its counter is the number of error records it has
    logged, and the successful ones are the rest of the list. *)
Theorem X10_failed_count_is_error_count
    (env : Env) (video_files : list pystr) (finished successful failed : nat)
    (w w' : World) (counts : nat * nat) :
  process_videos env video_files finished successful failed w
  = (Ret counts, w') →
  let errors :=
    length (error_records
              (new_events
                 (process_videos env video_files finished successful failed)
                 w)) in
  snd counts = (failed + errors)%nat ∧
  (fst counts + errors = successful + length video_files)%nat.
Proof.
  intros Hrun. cbv zeta.
  destruct (process_videos_trace env video_files finished successful failed w)
    as (k & evs & Ht & _ & _ & Hpost).
  rewrite (new_events_eq _ _ _ Ht). rewrite Hrun in Hpost. simpl in Hpost.
  lia.
Qed.

Lemma X10_witness :
  let run :=
    process_videos Sample.env_ok
      [py "/videos/a.mp4"; py "/videos/B.AVI"; py "/videos/clips.mov"]
      0 0 0 in
  fst (run (initial_world ∅)) = Ret (1, 2)%nat ∧
  length (error_records (new_events run (initial_world ∅))) = 2%nat.
Proof.
  cbv zeta.
  assert (process_videos Sample.env_ok
            [py "/videos/a.mp4"; py "/videos/B.AVI"; py "/videos/clips.mov"]
            0 0 0 (initial_world ∅)
          = (Ret (1, 2)%nat,
             snd (process_videos Sample.env_ok
                    [py "/videos/a.mp4"; py "/videos/B.AVI";
                     py "/videos/clips.mov"] 0 0 0 (initial_world ∅))))
    as Hrun by (vm_compute; reflexivity).
  split; [by rewrite Hrun|].
  destruct (X10_failed_count_is_error_count _ _ _ _ _ _ _ _ Hrun)
    as [Hfailed _].
  cbn [snd] in Hfailed. lia.
Defined.

(** X11: the extractor is called on a prefix of the list, in the order
    of the list and once per file: the whole list when the loop
    completes, and up to the file whose call raised otherwise.  No file is
    skipped and none is taken twice. *)
Theorem X11_calls_follow_the_list
    (env : Env) (video_files : list pystr) (finished successful failed : nat)
    (w : World) :
  ∃ k,
    (k ≤ length video_files)%nat ∧
    capture_calls
      (new_events (process_videos env video_files finished successful failed)
         w)
    = take k video_files ∧
    match fst (process_videos env video_files finished successful failed w)
    with
    | Ret _ => k = length video_files
    | Raise e => (1 ≤ k)%nat ∧ e = unbound_error
    end.
Proof.
  destruct (process_videos_trace env video_files finished successful failed w)
    as (k & evs & Ht & Hk & Hcalls & Hpost).
  exists k. rewrite (new_events_eq _ _ _ Ht). split; [done|]. split; [done|].
  destruct (fst _); tauto.
Qed.

(** ** Validation and the start-up of [main] *)

Lemma triple_files_quiet {A} (m : Py World A) P Q E w :
  triple m P Q E → (∀ path, ¬ P (EvImwrite path)) →
  files (snd (m w)) = files w.
Proof.
  intros Hm Hquiet. destruct (Hm w) as (evs & _ & Hall & Hfiles & _).
  apply map_eq. intros path. destruct (Hfiles path) as [?|Hin]; [done|].
  rewrite Forall_forall in Hall. by apply Hall, Hquiet in Hin.
Qed.

Section KeepsSessions.
Context {A B : Type}.

Lemma keeps_ret (a : A) : keeps_sessions (ret (S := World) a).
Proof. done. Qed.

Lemma keeps_raise e : keeps_sessions (raise (S := World) (A := A) e).
Proof. done. Qed.

Lemma keeps_gets (f : World → A) : keeps_sessions (gets f).
Proof. done. Qed.

Lemma keeps_bind (m : Py World A) (k : A → Py World B) :
  keeps_sessions m → (∀ a, keeps_sessions (k a)) → keeps_sessions (bind m k).
Proof.
  intros Hm Hk w. unfold bind. specialize (Hm w).
  destruct (m w) as [[a|e] w1]; simpl in *; [|done].
  by rewrite Hk.
Qed.

Lemma keeps_try_except catches (body : Py World A)
    (handler : pyexn → Py World A) :
  keeps_sessions body → (∀ e, keeps_sessions (handler e)) →
  keeps_sessions (try_except catches body handler).
Proof.
  intros Hb Hh w. unfold try_except. specialize (Hb w).
  destruct (body w) as [[a|e] w1]; simpl in *; [done|].
  destruct (catches e); [|done]. by rewrite Hh.
Qed.

End KeepsSessions.

Lemma keeps_emit e : keeps_sessions (modify (emit e)).
Proof. done. Qed.

Lemma keeps_add_installed package :
  keeps_sessions (modify (add_installed package)).
Proof. done. Qed.

Create HintDb keeps discriminated.
#[local] Hint Resolve keeps_ret keeps_raise keeps_gets keeps_emit
  keeps_add_installed : keeps.
#[local] Hint Extern 2 (keeps_sessions (bind _ _)) =>
  apply keeps_bind; [|intros ?] : keeps.
#[local] Hint Extern 2 (keeps_sessions (try_except _ _ _)) =>
  apply keeps_try_except; [|intros ?] : keeps.
#[local] Hint Extern 3 (keeps_sessions (if ?b then _ else _)) =>
  destruct b : keeps.
#[local] Hint Extern 3 (keeps_sessions (match ?x with _ => _ end)) =>
  destruct x : keeps.

Section Startup.
Context (env : Env).

Lemma keeps_check_dependencies_loop packages :
  keeps_sessions (check_dependencies_loop env packages).
Proof.
  induction packages as [|package rest IH]; simpl; [auto with keeps|].
  unfold import_module, log, pip_check_call. auto 12 with keeps.
Qed.

Lemma keeps_startup : keeps_sessions (startup env).
Proof.
  unfold startup, check_dependencies. apply keeps_bind.
  { apply keeps_check_dependencies_loop. }
  intros _. unfold import_module, input. auto 12 with keeps.
Qed.

Lemma keeps_validate_directory directory :
  keeps_sessions (validate_directory env directory).
Proof.
  unfold validate_directory, os_path_exists, os_path_isdir, os_access_rw, log.
  auto 20 with keeps.
Qed.

Lemma keeps_get_video_files directory :
  keeps_sessions (get_video_files env directory).
Proof.
  unfold get_video_files, os_listdir. auto 12 with keeps.
Qed.

Lemma keeps_run_directory directory :
  keeps_sessions (run_directory env directory).
Proof.
  unfold run_directory. apply keeps_bind; [apply keeps_validate_directory|].
  intros valid. destruct (negb valid); [apply keeps_raise|].
  apply keeps_bind; [apply keeps_get_video_files|].
  intros [|c cs]; unfold log, sys_exit; [auto with keeps|].
  apply keeps_bind; [apply keeps_emit|]. intros _.
  apply keeps_bind; [intros w; apply process_videos_sessions|].
  intros counts. apply keeps_emit.
Qed.

(** The dependency check, with what it can raise. *)
Lemma triple_import_dependency name :
  triple (import_module env name) (dependency_event env) (fun _ => True)
    (fun e => e = PyError ImportError name).
Proof.
  unfold import_module. emit_step.
  eapply triple_bind; [by apply triple_gets with (Q := fun _ => True)|].
  intros pkgs _. destruct (can_import env pkgs name).
  - by apply triple_ret.
  - by apply triple_raise.
Qed.

Lemma triple_pip_dependency package :
  package ∈ required_packages →
  triple (pip_check_call env package) (dependency_event env) (fun _ => True)
    (pip_failure env).
Proof.
  intros Hin. unfold pip_check_call. emit_step.
  destruct (Z.eqb_spec (pip_install env package) 0).
  - by apply triple_modify.
  - apply triple_raise. by exists package.
Qed.

Lemma triple_dependency_loop packages :
  packages ⊆ required_packages →
  triple (check_dependencies_loop env packages) (dependency_event env)
    (fun _ => True) (pip_failure env).
Proof.
  induction packages as [|package rest IH]; intros Hsub; simpl.
  - by apply triple_ret.
  - eapply triple_bind with (Q1 := fun _ => True).
    + eapply triple_try_except; [apply triple_import_dependency|].
      intros e ->. simpl. unfold log. emit_step.
      apply triple_pip_dependency, Hsub, elem_of_cons. by left.
    + intros _ _. apply IH. intros x Hx. apply Hsub, elem_of_cons. by right.
Qed.

Lemma triple_startup_precise :
  triple (startup env)
    (fun e => dependency_event env e ∨
              (e = EvInput ∧ ∀ a d rest, argv env ≠ a :: d :: rest))
    (fun d => requested_directory env = Some d) (startup_failure env).
Proof.
  unfold startup. eapply triple_bind.
  { eapply triple_conseq;
      [by apply triple_dependency_loop|by left|done|by left]. }
  intros _ _. eapply triple_bind.
  { eapply triple_conseq; [apply triple_import_dependency|by left|done|].
    intros e ->. right. by left. }
  intros _ _. unfold requested_directory.
  destruct (argv env) as [|a0 [|directory rest]];
    try (by apply triple_ret); unfold input;
    (eapply triple_bind;
     [apply triple_emit with (Q := fun _ => True); [by right|done]|]);
    intros _ _; (destruct (stdin_line env); [by apply triple_ret|]);
    apply triple_raise; right; by right.
Qed.

(** A run is the start-up and, when that returns a directory, the work
    on the directory from the world the start-up left. *)
Lemma main_after_startup w :
  match fst (startup env w) with
  | Ret d =>
      main env w = run_directory env d (snd (startup env w)) ∧
      new_events (main env) w
      = new_events (startup env) w
        ++ new_events (run_directory env d) (snd (startup env w))
  | Raise e =>
      main env w = (Raise e, snd (startup env w)) ∧
      new_events (main env) w = new_events (startup env) w
  end.
Proof.
  destruct (triple_startup env w) as (evs1 & Ht1 & _).
  rewrite (new_events_eq (startup env) w evs1 Ht1).
  pose proof (main_startup env w) as Hm. unfold bind in Hm.
  destruct (startup env w) as [[d|e] w1]; simpl in *.
  - split; [done|].
    destruct (triple_run_directory env d w1) as (evs2 & Ht2 & _).
    rewrite (new_events_eq _ _ _ Ht2). apply new_events_eq.
    by rewrite Hm, Ht2, Ht1, app_assoc.
  - split; [done|]. apply new_events_eq. by rewrite Hm.
Qed.

End Startup.

(** X12: [validate_directory] never raises.  It answers [True] exactly
    for a path that names a readable and writable directory; otherwise it
    logs one error, the one of the first check that fails (existence, then
    kind, then permissions).  It changes no file and opens no session. *)
Theorem X12_validation_verdict (env : Env) (directory : pystr) (w : World) :
  ∃ valid,
    fst (validate_directory env directory w) = Ret valid ∧
    (valid = true ↔
     ∃ entries, lookup_path env directory
                = Some (Directory true true entries)) ∧
    error_records (new_events (validate_directory env directory) w)
    = match lookup_path env directory with
      | None => [DirectoryDoesNotExist directory]
      | Some (RegularFile _ _) => [PathIsNotADirectory directory]
      | Some (Directory readable writable _) =>
          if readable && writable then []
          else [InsufficientPermissions directory]
      end ∧
    files (snd (validate_directory env directory w)) = files w ∧
    sessions (snd (validate_directory env directory w)) = sessions w.
Proof.
  unfold new_events, validate_directory, os_path_exists, os_path_isdir,
    os_access_rw, log, bind, modify, ret.
  destruct (lookup_path env directory) as [[r wr|r wr entries]|] eqn:Hl;
    simpl; [| destruct r, wr; simpl |];
    rewrite <- ?app_assoc, ?drop_app_length; simpl;
    eexists; (split; [reflexivity|]); (split; [|done]);
    (split; [intros [=]|intros [entries' [=]]]); eauto.
Qed.

(** X13: when validation answers [False] the run ends there with
    [sys.exit(1)]: after the start-up it has done nothing but the checks
    of validation — no listing, no decoding — and no file has changed. *)
Theorem X13_invalid_directory_stops_the_run
    (env : Env) (w : World) (directory : pystr) :
  fst (startup env w) = Ret directory →
  fst (validate_directory env directory (snd (startup env w))) = Ret false →
  fst (main env w) = Raise (SystemExit 1) ∧
  exit_status (fst (main env w)) = 1 ∧
  new_events (main env) w
  = new_events (startup env) w
    ++ new_events (validate_directory env directory) (snd (startup env w)) ∧
  files (snd (main env w)) = files w.
Proof.
  intros Hstart Hverdict.
  pose proof (main_after_startup env w) as Hmain.
  rewrite Hstart in Hmain. destruct Hmain as [Hmain Hevents].
  assert (run_directory env directory (snd (startup env w))
          = (Raise (SystemExit 1),
             snd (validate_directory env directory (snd (startup env w)))))
    as Hrun.
  { unfold run_directory, bind.
    destruct (validate_directory env directory (snd (startup env w)))
      as [[valid|e] w2]; simpl in *; [|done].
    by injection Hverdict as ->. }
  rewrite Hevents, Hmain. unfold new_events at 2. rewrite Hrun. simpl.
  split; [done|]. split; [done|]. split; [done|].
  rewrite (triple_files_quiet _ _ _ _ _ (triple_validate_directory env _));
    [|intros ? []].
  apply (triple_files_quiet _ _ _ _ _ (triple_startup env)). intros ? [].
Qed.

Lemma X13_witness :
  fst (main (Sample2.run_on (py "/locked")) (initial_world ∅))
  = Raise (SystemExit 1) ∧
  fst (main (Sample2.run_on (py "/file")) (initial_world ∅))
  = Raise (SystemExit 1).
Proof.
  split.
  - apply (X13_invalid_directory_stops_the_run
             (Sample2.run_on (py "/locked")) (initial_world ∅) (py "/locked"));
      vm_compute; reflexivity.
  - apply (X13_invalid_directory_stops_the_run
             (Sample2.run_on (py "/file")) (initial_world ∅) (py "/file"));
      vm_compute; reflexivity.
Defined.

(** X14: when the module of every required package can be imported, the
    dependency check only tries the imports: it starts no process,
    installs nothing and returns. *)
Theorem X14_no_install_when_importable (env : Env) (w : World) :
  (∀ package, package ∈ required_packages →
     can_import env (installed w) (module_of package) = true) →
  fst (check_dependencies env w) = Ret tt ∧
  new_events (check_dependencies env) w
  = map (fun package => EvImport (module_of package)) required_packages ∧
  installed (snd (check_dependencies env w)) = installed w ∧
  files (snd (check_dependencies env w)) = files w.
Proof.
  intros Himport.
  pose proof (Himport (py "opencv-python") ltac:(by left)) as H1.
  pose proof (Himport (py "tqdm") ltac:(right; by left)) as H2.
  unfold module_of in *.
  unfold new_events, check_dependencies, required_packages. simpl in *.
  unfold try_except, import_module, bind, modify, gets, ret. simpl.
  rewrite H1. simpl. rewrite H2. simpl.
  by rewrite <- ?app_assoc, drop_app_length.
Qed.

Lemma X14_witness :
  new_events (check_dependencies (Sample2.run_on (py "/twins")))
    (initial_world ∅)
  = [EvImport (py "opencv_python"); EvImport (py "tqdm")].
Proof.
  apply (X14_no_install_when_importable (Sample2.run_on (py "/twins"))
           (initial_world ∅)).
  intros package _. reflexivity.
Defined.

(** X15: the dependency check raises only when pip could not install a
    required package, and [main] does not catch that error: the run ends
    with it (exit status 1) having done nothing but imports and pip
    calls — the directory is not even validated. *)
Theorem X15_failed_install_ends_the_run
    (env : Env) (w : World) (e : pyexn) :
  fst (check_dependencies env w) = Raise e →
  pip_failure env e ∧
  main env w = (Raise e, snd (check_dependencies env w)) ∧
  exit_status (fst (main env w)) = 1 ∧
  Forall (dependency_event env) (new_events (main env) w).
Proof.
  intros Hraise.
  destruct (triple_dependency_loop env required_packages (reflexivity _) w)
    as (evs & Ht & Hall & _ & Hpost).
  fold (check_dependencies env) in Ht, Hpost. rewrite Hraise in Hpost.
  assert (main env w = (Raise e, snd (check_dependencies env w))) as Hmain.
  { unfold main, bind.
    destruct (check_dependencies env w) as [[[]|e'] w1]; simpl in *; [done|].
    by injection Hraise as ->. }
  split; [done|]. split; [done|]. rewrite Hmain. split.
  - destruct Hpost as (package & _ & -> & _). reflexivity.
  - unfold new_events. rewrite Hmain. simpl.
    by rewrite Ht, drop_app_length.
Qed.

Lemma X15_witness :
  let e := PyError CalledProcessError (py "tqdm") in
  fst (check_dependencies Sample2.env_no_tqdm (initial_world ∅)) = Raise e ∧
  fst (main Sample2.env_no_tqdm (initial_world ∅)) = Raise e.
Proof.
  cbv zeta.
  assert (fst (check_dependencies Sample2.env_no_tqdm (initial_world ∅))
          = Raise (PyError CalledProcessError (py "tqdm"))) as Hraise
    by (vm_compute; reflexivity).
  split; [exact Hraise|].
  destruct (X15_failed_install_ends_the_run _ _ _ Hraise) as (_ & Hmain & _).
  by rewrite Hmain.
Defined.

(** X16: a directory given on the command line is the directory of the
    run, and the run never prompts for one, whatever else it does. *)
Theorem X16_argument_replaces_the_prompt
    (env : Env) (w : World) (script directory : pystr) (rest : list pystr) :
  argv env = script :: directory :: rest →
  (∀ d, fst (startup env w) = Ret d → d = directory) ∧
  (EvInput ∉ new_events (main env) w).
Proof.
  intros Hargv.
  destruct (triple_startup_precise env w) as (evs1 & Ht1 & Hall1 & _ & Hpost).
  assert (EvInput ∉ evs1) as Hquiet.
  { intros Hin. rewrite Forall_forall in Hall1.
    destruct (Hall1 _ Hin) as [[]|[_ Hno]]. by eapply Hno. }
  rewrite <- (new_events_eq _ _ _ Ht1) in Hquiet.
  split.
  - intros d Hd. rewrite Hd in Hpost. unfold requested_directory in Hpost.
    rewrite Hargv in Hpost. by injection Hpost as ->.
  - pose proof (main_after_startup env w) as Hmain.
    destruct (fst (startup env w)) as [d|e]; destruct Hmain as [_ ->];
      [|done].
    intros [?|Hin]%elem_of_app; [done|].
    pose proof (triple_new_events _ _ _ _ (snd (startup env w))
                  (triple_run_directory env d)) as Hall.
    rewrite Forall_forall in Hall. by apply Hall in Hin.
Qed.

Lemma X16_witness :
  fst (startup Sample.env_ok (initial_world ∅)) = Ret Sample.videos ∧
  (EvInput ∉ new_events (main Sample.env_ok) (initial_world ∅)).
Proof.
  destruct (X16_argument_replaces_the_prompt Sample.env_ok (initial_world ∅)
              (py "frame-extractor.py") Sample.videos [] eq_refl)
    as [_ Hquiet].
  split; [vm_compute; reflexivity|exact Hquiet].
Defined.





(** X19: however a run ends, the open decode sessions are afterwards what
    they were when it started. *)
Theorem X19_run_leaves_no_session (env : Env) (w : World) :
  sessions (snd (main env w)) = sessions w.
Proof.
  rewrite main_startup.
  apply (keeps_bind (startup env) (run_directory env)).
  - apply keeps_startup.
  - apply keeps_run_directory.
Qed.

(** ** Discovery, once more *)

Lemma NoDup_join directory names :
  Forall (fun name => valid_name name = true) names →
  NoDup names → NoDup (map (join directory) names).
Proof.
  intros Hvalid Hnodup.
  induction Hnodup as [|name names Hnotin Hnodup IH]; simpl.
  - constructor.
  - apply Forall_cons in Hvalid as [Hname Hvalid].
    constructor; [|by apply IH].
    intros Hin. apply list_elem_of_In, in_map_iff in Hin as (n & Heq & Hn).
    apply list_elem_of_In in Hn. rewrite Forall_forall in Hvalid.
    apply valid_name_spec in Hname as [_ Hname].
    pose proof (Hvalid n Hn) as [_ Hn']%valid_name_spec.
    rewrite !join_name in Heq by done. apply app_inv_head in Heq.
    by subst n.
Qed.

(** X20: when the listing of the directory has no name twice (and its
    names are well formed), discovery returns no path twice, and never
    more paths than there are entries: every file is offered to the
    extractor once. *)
Theorem X20_candidates_are_distinct
    (env : Env) (directory : pystr) (w w' : World) (found : list pystr)
    (writable : bool) (entries : list (pystr * fsnode)) :
  get_video_files env directory w = (Ret found, w') →
  lookup_path env directory = Some (Directory true writable entries) →
  NoDup (entry_names entries) →
  Forall (fun name => valid_name name = true) (entry_names entries) →
  NoDup found ∧ (length found ≤ length entries)%nat.
Proof.
  intros Hrun Hlookup Hnodup Hvalid.
  destruct (get_video_files_result env _ _ _ _ Hrun)
    as (writable' & entries' & Hlookup' & ->).
  rewrite Hlookup in Hlookup'. injection Hlookup' as <- <-.
  split.
  - apply NoDup_join.
    + rewrite Forall_forall in *. intros name Hin.
      apply Hvalid. by apply list_elem_of_In, filter_In, proj1 in Hin;
        apply list_elem_of_In.
    + by apply NoDup_ListNoDup, List.NoDup_filter, NoDup_ListNoDup.
  - rewrite length_map.
    etrans; [apply List.filter_length_le|].
    unfold entry_names. by rewrite length_map.
Qed.

Lemma X20_witness :
  NoDup (candidates (Sample2.run_on (py "/twins")) (py "/twins")).
Proof.
  assert (get_video_files (Sample2.run_on (py "/twins")) (py "/twins")
            (initial_world ∅)
          = (Ret (candidates (Sample2.run_on (py "/twins")) (py "/twins")),
             emit (EvListdir (py "/twins")) (initial_world ∅))) as Hrun
    by (vm_compute; reflexivity).
  apply (X20_candidates_are_distinct _ _ _ _ _ true
           [ (py "show.mp4", RegularFile true true);
             (py "show.avi", RegularFile true true);
             (py "show_first_frame.png", RegularFile true true);
             (py ".mp4", RegularFile true true) ] Hrun).
  - reflexivity.
  - apply (bool_decide_unpack _). vm_compute. exact I.
  - repeat constructor.
Defined.

(** X21: the suffix test does not look at the case of the letters.  A
    name passes exactly when it ends in some spelling of one of the six
    extensions, that is in a string whose lower-cased form is one of
    them. *)
Theorem X21_suffix_test_ignores_case (name : pystr) :
  endswith_any (lower name) video_extensions = true ↔
  ∃ stem ext, name = stem ++ ext ∧ lower ext ∈ video_extensions.
Proof.
  fold (is_video_name name). rewrite is_video_name_spec. split.
  - intros (ext & Hin & l & Hl).
    exists (take (length l) name), (drop (length l) name).
    split; [by rewrite take_drop|].
    unfold lower in *. rewrite <- List.skipn_map, Hl.
    by rewrite drop_app_length.
  - intros (stem & ext & -> & Hin).
    exists (lower ext). split; [done|]. exists (lower stem). apply lower_app.
Qed.

(** X22: two videos with one output path, processed one after the other,
    are both counted as successful, and the image that remains is the
    frame of the second. *)
Theorem X22_later_video_overwrites_image
    (env : Env) (first second : pystr) (f1 f2 : frame)
    (finished successful failed : nat) (w : World) :
  output_path_of first = output_path_of second →
  (∀ fs, cv_open env fs first = Opened ∧ cv_read env fs first = FirstFrame f1
         ∧ cv_imwrite env fs (output_path_of first) f1 = WriteTrue) →
  (∀ fs, cv_open env fs second = Opened
         ∧ cv_read env fs second = FirstFrame f2
         ∧ cv_imwrite env fs (output_path_of second) f2 = WriteTrue) →
  fst (process_videos env [first; second] finished successful failed w)
  = Ret ((successful + 1 + 1)%nat, failed) ∧
  files (snd (process_videos env [first; second] finished successful failed w))
    !! output_path_of first
  = Some (PngImage f2).
Proof.
  intros Hsame Hfirst Hsecond.
  rewrite process_videos_cons.
  destruct (Hfirst (files w)) as (Ho1 & Hr1 & Hw1).
  destruct (extract_write_true env first w f1 Ho1 Hr1 Hw1) as (Hret1 & _).
  destruct (extract_first_frame env first w) as [r1 w1]. simpl in Hret1.
  subst r1. rewrite truthy_output. cbv zeta.
  rewrite process_videos_cons.
  set (w2 := emit (EvProgress (S finished)) w1).
  destruct (Hsecond (files w2)) as (Ho2 & Hr2 & Hw2).
  destruct (extract_write_true env second w2 f2 Ho2 Hr2 Hw2)
    as (Hret2 & Hfiles2 & _).
  destruct (extract_first_frame env second w2) as [r2 w3]. simpl in *.
  subst r2. rewrite truthy_output. simpl.
  split; [done|]. by rewrite Hfiles2, Hsame, lookup_insert_eq.
Qed.

Lemma X22_witness :
  let run :=
    process_videos (Sample2.run_on (py "/twins"))
      [py "/twins/show.mp4"; py "/twins/show.avi"] 0 0 0 (initial_world ∅) in
  fst run = Ret (2, 0)%nat ∧
  files (snd run) !! py "/twins/show_first_frame.png"
  = Some (PngImage [len (py "/twins/show.avi")]).
Proof.
  cbv zeta.
  assert (output_path_of (py "/twins/show.mp4")
          = output_path_of (py "/twins/show.avi")) as Hsame
    by (vm_compute; reflexivity).
  destruct (X22_later_video_overwrites_image (Sample2.run_on (py "/twins"))
              (py "/twins/show.mp4") (py "/twins/show.avi")
              [len (py "/twins/show.mp4")] [len (py "/twins/show.avi")]
              0 0 0 (initial_world ∅) Hsame)
    as [Hret Hfile];
    [intros fs; split; [|split]; reflexivity
    |intros fs; split; [|split]; reflexivity|].
  split; [exact Hret|].
  assert (output_path_of (py "/twins/show.mp4")
          = py "/twins/show_first_frame.png") as Hout
    by (vm_compute; reflexivity).
  rewrite <- Hout. exact Hfile.
Defined.
